(** * JobFit Analyzer: the bulk-ranking pipeline of [app.py]

    A shallow embedding of [extract_text_from_pdf], [get_gemini_response]
    and [process_bulk_resumes], together with the parts of the Python
    runtime they rely on ([str.find], [str.rfind], slicing, [str.strip],
    [json.loads]), followed by the properties of the ranking-response
    normalizer.

    Conventions.  A Python [str] is held as the string of its UTF-8 bytes;
    the only characters the code searches for are the ASCII braces, so
    byte indices and code-point indices select the same substrings.  A
    Python [dict] is an association list in insertion order with distinct
    keys.  Statements that may raise live in the monad [M], which also
    records the Streamlit notices ([st.error], [st.warning]) they emit. *)

From Stdlib Require Import String Ascii List ZArith Lia Bool.
From Stdlib Require Import DecimalString.
From Stdlib Require DecimalFacts DecimalPos DecimalZ.
Import ListNotations.

Local Open Scope string_scope.
Local Open Scope list_scope.

(** ** Python values, exceptions and effects *)

Module Py.

(** The values [json.loads] can produce.  A float is kept as the lexeme it
    was read from: the pipeline never computes with it. *)
#[warnings="-register-all"]
Inductive value : Type :=
| VNone
| VBool (b : bool)
| VInt (z : Z)
| VFloat (lexeme : string)
| VStr (s : string)
| VList (l : list value)
| VDict (d : list (string * value)).

(** [json.JSONDecodeError(msg, doc, pos)] and every other subclass of
    [Exception] (RecursionError, ValueError, ...), kept with its message. *)
Inductive exn : Type :=
| JSONDecodeError (msg : string) (doc : string) (pos : nat)
| Exception (msg : string).

Definition is_JSONDecodeError (e : exn) : bool :=
  match e with JSONDecodeError _ _ _ => true | Exception _ => false end.

(** [except Exception] catches both. *)
Definition is_Exception (e : exn) : bool := true.

Inductive notice : Type :=
| st_error (msg : string)
| st_warning (msg : string).

Inductive outcome (A : Type) : Type :=
| Return (a : A)
| Raise (e : exn).
Arguments Return {A} a.
Arguments Raise {A} e.

(** A statement: the notices it emitted, and how it ended. *)
Definition M (A : Type) : Type := (list notice * outcome A)%type.

Definition ret {A} (a : A) : M A := ([], Return a).
Definition emit (n : notice) : M unit := ([n], Return tt).
Definition lift {A} (o : outcome A) : M A := ([], o).

Definition bind {A B} (m : M A) (k : A -> M B) : M B :=
  match m with
  | (log, Return a) => let '(log', r) := k a in (log ++ log', r)
  | (log, Raise e) => (log, Raise e)
  end.

(** [try: m except <class> as e: h e] *)
Definition try_except {A} (m : M A) (class : exn -> bool) (h : exn -> M A) : M A :=
  match m with
  | (log, Return a) => (log, Return a)
  | (log, Raise e) =>
      if class e then let '(log', r) := h e in (log ++ log', r)
      else (log, Raise e)
  end.

Definition notices {A} (m : M A) : list notice := fst m.
Definition result {A} (m : M A) : outcome A := snd m.

Module Notations.
Notation "x <- m ;; k" := (bind m (fun x => k))
  (at level 61, m at next level, right associativity).
Notation "m ;; k" := (bind m (fun _ => k))
  (at level 61, right associativity).
End Notations.

(** *** Strings *)

Definition nl : string := String (ascii_of_nat 10) EmptyString.
Definition len (s : string) : Z := Z.of_nat (String.length s).

(** [s.find(c)] for a one-character [c]: lowest index, or -1. *)
Fixpoint find_from (c : ascii) (s : string) (i : Z) : Z :=
  match s with
  | EmptyString => (-1)%Z
  | String a s' => if Ascii.eqb a c then i else find_from c s' (i + 1)%Z
  end.
Definition find (s : string) (c : ascii) : Z := find_from c s 0%Z.

(** [s.rfind(c)]: highest index, or -1. *)
Fixpoint rfind_from (c : ascii) (s : string) (i last : Z) : Z :=
  match s with
  | EmptyString => last
  | String a s' => rfind_from c s' (i + 1)%Z (if Ascii.eqb a c then i else last)
  end.
Definition rfind (s : string) (c : ascii) : Z := rfind_from c s 0%Z (-1)%Z.

(** Slice bounds as CPython adjusts them: a negative index counts from the
    end, and both are clamped to [0, len]. *)
Definition adjust_index (n i : Z) : Z :=
  if (i <? 0)%Z then Z.max (i + n) 0 else Z.min i n.

(** [s[i:j]] *)
Definition slice (s : string) (i j : Z) : string :=
  let i' := adjust_index (len s) i in
  let j' := adjust_index (len s) j in
  substring (Z.to_nat i') (Z.to_nat (j' - i')) s.

(** [sep.join(parts)] *)
Fixpoint join (sep : string) (parts : list string) : string :=
  match parts with
  | [] => EmptyString
  | [p] => p
  | p :: rest => p ++ sep ++ join sep rest
  end.

Fixpoint rev_string (s acc : string) : string :=
  match s with
  | EmptyString => acc
  | String a s' => rev_string s' (String a acc)
  end.

Definition byte (n : nat) : ascii := ascii_of_nat n.

(** The code points for which [str.isspace] holds, as UTF-8 byte
    sequences: U+0009..U+000D, U+001C..U+0020, U+0085, U+00A0, U+1680,
    U+2000..U+200A, U+2028, U+2029, U+202F, U+205F, U+3000. *)
Definition ascii_space (a : ascii) : bool :=
  let n := nat_of_ascii a in
  (((9 <=? n) && (n <=? 13)) || ((28 <=? n) && (n <=? 32)))%nat.

Definition space3 (b1 b2 b3 : nat) : bool :=
  match b1, b2 with
  | 225, 154 => (b3 =? 128)%nat
  | 226, 128 =>
      (((128 <=? b3) && (b3 <=? 138)) || (b3 =? 168) || (b3 =? 169) || (b3 =? 175))%nat
  | 226, 129 => (b3 =? 159)%nat
  | 227, 128 => (b3 =? 128)%nat
  | _, _ => false
  end.

Definition space2 (b1 b2 : nat) : bool :=
  ((b1 =? 194) && ((b2 =? 133) || (b2 =? 160)))%nat.

(** Drop one leading whitespace code point, if there is one. *)
Definition drop_space (s : string) : option string :=
  match s with
  | String a s1 =>
      if ascii_space a then Some s1 else
      match s1 with
      | String b s2 =>
          if space2 (nat_of_ascii a) (nat_of_ascii b) then Some s2 else
          match s2 with
          | String c s3 =>
              if space3 (nat_of_ascii a) (nat_of_ascii b) (nat_of_ascii c)
              then Some s3 else None
          | EmptyString => None
          end
      | EmptyString => None
      end
  | EmptyString => None
  end.

(** The same on a reversed string: drop one trailing whitespace code point. *)
Definition drop_space_rev (s : string) : option string :=
  match s with
  | String a s1 =>
      if ascii_space a then Some s1 else
      match s1 with
      | String b s2 =>
          if space2 (nat_of_ascii b) (nat_of_ascii a) then Some s2 else
          match s2 with
          | String c s3 =>
              if space3 (nat_of_ascii c) (nat_of_ascii b) (nat_of_ascii a)
              then Some s3 else None
          | EmptyString => None
          end
      | EmptyString => None
      end
  | EmptyString => None
  end.

Fixpoint drop_while (step : string -> option string) (fuel : nat) (s : string) : string :=
  match fuel with
  | O => s
  | S fuel' =>
      match step s with
      | Some s' => drop_while step fuel' s'
      | None => s
      end
  end.

Definition lstrip (s : string) : string :=
  drop_while drop_space (String.length s) s.

Definition rstrip (s : string) : string :=
  rev_string (drop_while drop_space_rev (String.length s) (rev_string s EmptyString)) EmptyString.

(** [s.strip()] *)
Definition strip (s : string) : string := rstrip (lstrip s).

(** [str(n)] for a non-negative integer. *)
Definition str_of_nat (n : nat) : string := NilEmpty.string_of_uint (Nat.to_uint n).

(** A byte that continues a multi-byte UTF-8 sequence. *)
Definition is_continuation (a : ascii) : bool :=
  let n := nat_of_ascii a in ((128 <=? n) && (n <? 192))%nat.

(** Number of code points of a UTF-8 string. *)
Fixpoint cp_length (s : string) : nat :=
  match s with
  | EmptyString => 0
  | String a s' => if is_continuation a then cp_length s' else S (cp_length s')
  end.

(** The line and column of code point [pos] of [doc], as
    [JSONDecodeError.__init__] computes [lineno] and [colno]: one more
    than the newlines before [pos], and the distance to the last of them. *)
Fixpoint line_col (doc : string) (pos line col : nat) : nat * nat :=
  match pos, doc with
  | S pos', String a doc' =>
      if is_continuation a then line_col doc' pos line col
      else if Ascii.eqb a (byte 10) then line_col doc' pos' (S line) 1
      else line_col doc' pos' line (S col)
  | _, _ => (line, col)
  end.

(** [str(e)] *)
Definition str_exn (e : exn) : string :=
  match e with
  | JSONDecodeError msg doc pos =>
      let '(line, col) := line_col doc pos 1 1 in
      msg ++ ": line " ++ str_of_nat line ++ " column " ++ str_of_nat col
          ++ " (char " ++ str_of_nat pos ++ ")"
  | Exception msg => msg
  end.

(** *** Dictionaries *)

Definition isinstance_dict (v : value) : bool :=
  match v with VDict _ => true | _ => false end.

(** [k in d] for a dict [d]. *)
Definition dict_has (k : string) (d : list (string * value)) : bool :=
  existsb (fun kv => String.eqb (fst kv) k) d.

(** [d[k]] *)
Fixpoint dict_get (k : string) (d : list (string * value)) : option value :=
  match d with
  | [] => None
  | (k', v) :: d' => if String.eqb k' k then Some v else dict_get k d'
  end.

(** [enumerate(l)] *)
Fixpoint enumerate_from {A} (i : nat) (l : list A) : list (nat * A) :=
  match l with
  | [] => []
  | x :: l' => (i, x) :: enumerate_from (S i) l'
  end.
Definition enumerate {A} (l : list A) : list (nat * A) := enumerate_from 0 l.

End Py.

(** ** [json.loads]

    The decoder of CPython's [json] package ([json/decoder.py],
    [json/scanner.py] and their C counterparts) for a [str] argument with
    the default options (strict mode, no hooks).  It is not part of the
    application: the application is parametric in it, and this instance is
    the one the concrete runs below use.  Message texts and positions are
    those of the C scanner, which CPython uses by default; positions count
    code points.

    Two limits of the interpreter are not modelled: the limit on the
    number of digits of an integer (ValueError above 4300 digits) and the
    recursion limit (RecursionError on deep nesting).  On such documents
    CPython raises an exception that is not a [JSONDecodeError], and this
    decoder does not.  Every statement about the application that is to
    hold for such documents too is therefore made for an arbitrary parser,
    which may raise any exception; this decoder is applied only to
    concrete documents, to texts that it rejects at their first character,
    and to the serialized fallback (three levels deep, its only integers
    the ranks, which would need a list of 10^4300 resumes to reach the
    digit limit).  [fuel] bounds the recursion of the model, and [loads]
    starts with enough of it (lemma [loads_total]). *)

Module Json.
Import Py.

Local Open Scope string_scope.

(** The position in [doc] at which the suffix [rest] starts. *)
Definition pos_of (doc rest : string) : nat := cp_length doc - cp_length rest.

Definition decode_error {A} (msg doc rest : string) : outcome A :=
  Raise (JSONDecodeError msg doc (pos_of doc rest)).

Definition recursion_error {A} : outcome A :=
  Raise (Exception "maximum recursion depth exceeded while decoding a JSON document").

(** [WHITESPACE]: space, tab, line feed, carriage return. *)
Definition is_ws (a : ascii) : bool :=
  let n := nat_of_ascii a in ((n =? 32) || (n =? 9) || (n =? 10) || (n =? 13))%nat.

Fixpoint skip_ws (s : string) : string :=
  match s with
  | String a s' => if is_ws a then skip_ws s' else s
  | EmptyString => EmptyString
  end.

Definition is_digit (a : ascii) : bool :=
  let n := nat_of_ascii a in ((48 <=? n) && (n <=? 57))%nat.

(** The longest run of digits at the front of [s], and what follows it. *)
Fixpoint span_digits (s : string) : string * string :=
  match s with
  | String a s' =>
      if is_digit a then let '(ds, rest) := span_digits s' in (String a ds, rest)
      else (EmptyString, s)
  | EmptyString => (EmptyString, EmptyString)
  end.

(** The [integer] group of [NUMBER_RE]: an optional minus sign, then
    either a single 0 or a non-zero digit followed by digits. *)
Definition match_digits (s : string) : option (string * string) :=
  match s with
  | String a s' =>
      if Ascii.eqb a "0" then Some ("0", s')
      else if is_digit a then Some (span_digits s)
      else None
  | EmptyString => None
  end.

Definition match_integer (s : string) : option (string * string) :=
  match s with
  | String a s' =>
      if Ascii.eqb a "-" then
        match match_digits s' with
        | Some (ds, rest) => Some (String "-" ds, rest)
        | None => None
        end
      else match_digits s
  | EmptyString => None
  end.

(** The optional [frac] group: a dot and at least one digit. *)
Definition match_frac (s : string) : string * string :=
  match s with
  | String a s1 =>
      if Ascii.eqb a "." then
        match span_digits s1 with
        | (EmptyString, _) => (EmptyString, s)
        | (ds, rest) => (String "." ds, rest)
        end
      else (EmptyString, s)
  | EmptyString => (EmptyString, s)
  end.

(** The optional [exp] group: e or E, an optional sign, at least one digit. *)
Definition match_exp (s : string) : string * string :=
  match s with
  | String e s1 =>
      if Ascii.eqb e "e" || Ascii.eqb e "E" then
        let '(sign, s2) :=
          match s1 with
          | String a s' =>
              if Ascii.eqb a "-" || Ascii.eqb a "+" then (String a EmptyString, s') else (EmptyString, s1)
          | EmptyString => (EmptyString, s1)
          end in
        match span_digits s2 with
        | (EmptyString, _) => (EmptyString, s)
        | (ds, rest) => (String e sign ++ ds, rest)
        end
      else (EmptyString, s)
  | EmptyString => (EmptyString, s)
  end.

(** [int(integer)] *)
Definition parse_int (integer : string) : Z :=
  match NilEmpty.int_of_string integer with
  | Some d => Z.of_int d
  | None => 0%Z
  end.

(** [match_number]: a float when there is a fraction or an exponent. *)
Definition match_number (s : string) : option (value * string) :=
  match match_integer s with
  | None => None
  | Some (integer, s1) =>
      let '(frac, s2) := match_frac s1 in
      let '(exp, s3) := match_exp s2 in
      match frac, exp with
      | EmptyString, EmptyString => Some (VInt (parse_int integer), s3)
      | _, _ => Some (VFloat (integer ++ frac ++ exp), s3)
      end
  end.

(** [s.startswith(p)], returning what follows [p]. *)
Fixpoint strip_prefix (p s : string) : option string :=
  match p, s with
  | EmptyString, _ => Some s
  | String a p', String b s' => if Ascii.eqb a b then strip_prefix p' s' else None
  | String _ _, EmptyString => None
  end.

Definition hex_val (a : ascii) : option N :=
  let n := nat_of_ascii a in
  if ((48 <=? n) && (n <=? 57))%nat then Some (N.of_nat (n - 48))
  else if ((65 <=? n) && (n <=? 70))%nat then Some (N.of_nat (n - 55))
  else if ((97 <=? n) && (n <=? 102))%nat then Some (N.of_nat (n - 87))
  else None.

(** [_decode_uXXXX]: the four hexadecimal digits after the [u].  The C
    scanner accepts them only when the document goes on after them (a
    string cannot end there, its closing quote is still to come). *)
Definition decode_uXXXX (s : string) : option (N * string) :=
  match s with
  | String a (String b (String c (String d (String _ _ as rest)))) =>
      match hex_val a, hex_val b, hex_val c, hex_val d with
      | Some x3, Some x2, Some x1, Some x0 =>
          Some (((x3 * 16 + x2) * 16 + x1) * 16 + x0, rest)%N
      | _, _, _, _ => None
      end
  | _ => None
  end.

Definition byteN (n : N) : ascii := ascii_of_N n.

(** [chr(uni)], as UTF-8 bytes (a lone surrogate as its three-byte form). *)
Definition chr (uni : N) : string :=
  (if uni <? 128 then String (byteN uni) EmptyString
   else if uni <? 2048 then
     String (byteN (192 + uni / 64)) (String (byteN (128 + uni mod 64)) EmptyString)
   else if uni <? 65536 then
     String (byteN (224 + uni / 4096))
       (String (byteN (128 + (uni / 64) mod 64)) (String (byteN (128 + uni mod 64)) EmptyString))
   else
     String (byteN (240 + uni / 262144))
       (String (byteN (128 + (uni / 4096) mod 64))
          (String (byteN (128 + (uni / 64) mod 64))
             (String (byteN (128 + uni mod 64)) EmptyString))))%N.

(** [BACKSLASH] *)
Definition backslash (esc : ascii) : option ascii :=
  match nat_of_ascii esc with
  | 34 => Some (byte 34)    (* quotation mark *)
  | 92 => Some (byte 92)    (* reverse solidus *)
  | 47 => Some (byte 47)    (* solidus *)
  | 98 => Some (byte 8)     (* b *)
  | 102 => Some (byte 12)   (* f *)
  | 110 => Some (byte 10)   (* n *)
  | 114 => Some (byte 13)   (* r *)
  | 116 => Some (byte 9)    (* t *)
  | _ => None
  end.

(** What follows a backslash ([s] is the text after it, [start] the
    suffix at the opening quote of the string): the character(s) the escape
    stands for and the rest.  An unknown escape is reported at the
    backslash, a malformed [u] escape at its [u]. *)
Definition scan_escape (doc start s : string) : outcome (string * string) :=
  match s with
  | EmptyString => decode_error "Unterminated string starting at" doc start
  | String esc s1 =>
      if Ascii.eqb esc "u" then
        match decode_uXXXX s1 with
        | None => decode_error "Invalid \uXXXX escape" doc s
        | Some (uni, s2) =>
            let single := Return (chr uni, s2) in
            if ((55296 <=? uni) && (uni <=? 56319))%N then
              match s2 with
              | String x (String y s3) =>
                  if Ascii.eqb x "\" && Ascii.eqb y "u" then
                    match decode_uXXXX s3 with
                    | None => decode_error "Invalid \uXXXX escape" doc (String y s3)
                    | Some (uni2, s4) =>
                        if ((56320 <=? uni2) && (uni2 <=? 57343))%N then
                          Return (chr (65536 + ((uni - 55296) * 1024 + (uni2 - 56320)))%N,
                                  s4)
                        else single
                    end
                  else single
              | _ => single
              end
            else single
        end
      else
        match backslash esc with
        | Some c => Return (String c EmptyString, s1)
        | None => decode_error "Invalid \escape" doc (String "\" s)
        end
  end.

(** [scanstring(s, end, strict=True)], entered after the opening quote;
    [begin] is the suffix starting at that quote. *)
Fixpoint scanstring (fuel : nat) (doc begin s : string) : outcome (string * string) :=
  match fuel with
  | O => recursion_error
  | S fuel' =>
      match s with
      | EmptyString => decode_error "Unterminated string starting at" doc begin
      | String a s1 =>
          if Ascii.eqb a (byte 34) then Return (EmptyString, s1)
          else if Ascii.eqb a "\" then
            match scan_escape doc begin s1 with
            | Raise e => Raise e
            | Return (c, s2) =>
                match scanstring fuel' doc begin s2 with
                | Raise e => Raise e
                | Return (content, rest) => Return (c ++ content, rest)
                end
            end
          else if (nat_of_ascii a <? 32)%nat then
            decode_error "Invalid control character at" doc s
          else
            match scanstring fuel' doc begin s1 with
            | Raise e => Raise e
            | Return (content, rest) => Return (String a content, rest)
            end
      end
  end.

(** [d[k] = v] *)
Fixpoint dict_set (k : string) (v : value) (d : list (string * value))
  : list (string * value) :=
  match d with
  | [] => [(k, v)]
  | (k', v') :: d' =>
      if String.eqb k' k then (k', v) :: d' else (k', v') :: dict_set k v d'
  end.

(** [dict(pairs)]: a repeated key keeps its first place and its last value. *)
Definition dict_of_pairs (pairs : list (string * value)) : list (string * value) :=
  fold_left (fun d kv => dict_set (fst kv) (snd kv) d) pairs [].

(** [scan_once], with the loops of [JSONObject] and [JSONArray].  A
    [StopIteration] is turned into "Expecting value" by every caller, so it
    is raised as that here. *)
Fixpoint scan_once (fuel : nat) (doc s : string) {struct fuel} : outcome (value * string) :=
  match fuel with
  | O => recursion_error
  | S fuel' =>
      match s with
      | EmptyString => decode_error "Expecting value" doc s
      | String a s1 =>
          if Ascii.eqb a (byte 34) then
            match scanstring (S (String.length s1)) doc s s1 with
            | Raise e => Raise e
            | Return (str, rest) => Return (VStr str, rest)
            end
          else if Ascii.eqb a "{" then
            let s2 := skip_ws s1 in
            match s2 with
            | String q rest =>
                if Ascii.eqb q "}" then Return (VDict [], rest)
                else if Ascii.eqb q (byte 34) then object_loop fuel' doc s2 []
                else decode_error
                       "Expecting property name enclosed in double quotes" doc s2
            | EmptyString =>
                decode_error "Expecting property name enclosed in double quotes" doc s2
            end
          else if Ascii.eqb a "[" then
            let s2 := skip_ws s1 in
            match s2 with
            | String q rest =>
                if Ascii.eqb q "]" then Return (VList [], rest)
                else array_loop fuel' doc s2 []
            | EmptyString => array_loop fuel' doc s2 []
            end
          else
            match strip_prefix "null" s, strip_prefix "true" s, strip_prefix "false" s with
            | Some rest, _, _ => Return (VNone, rest)
            | _, Some rest, _ => Return (VBool true, rest)
            | _, _, Some rest => Return (VBool false, rest)
            | _, _, _ =>
                match match_number s with
                | Some r => Return r
                | None =>
                    match strip_prefix "NaN" s, strip_prefix "Infinity" s,
                          strip_prefix "-Infinity" s with
                    | Some rest, _, _ => Return (VFloat "NaN", rest)
                    | _, Some rest, _ => Return (VFloat "Infinity", rest)
                    | _, _, Some rest => Return (VFloat "-Infinity", rest)
                    | _, _, _ => decode_error "Expecting value" doc s
                    end
                end
            end
      end
  end

(** One turn of the [while True] of [JSONObject]; [s] starts at the
    opening quote of a key and [pairs] holds the pairs read so far. *)
with object_loop (fuel : nat) (doc s : string) (pairs : list (string * value))
       {struct fuel} : outcome (value * string) :=
  match fuel with
  | O => recursion_error
  | S fuel' =>
      match s with
      | EmptyString => decode_error "Expecting property name enclosed in double quotes" doc s
      | String _ s1 =>
          match scanstring (S (String.length s1)) doc s s1 with
          | Raise e => Raise e
          | Return (key, s2) =>
              let s3 := skip_ws s2 in
              match s3 with
              | String colon s4 =>
                  if Ascii.eqb colon ":" then
                    match scan_once fuel' doc (skip_ws s4) with
                    | Raise e => Raise e
                    | Return (v, s5) =>
                        let pairs := (pairs ++ [(key, v)])%list in
                        let s6 := skip_ws s5 in
                        match s6 with
                        | String delim s7 =>
                            if Ascii.eqb delim "}" then
                              Return (VDict (dict_of_pairs pairs), s7)
                            else if Ascii.eqb delim "," then
                              let s8 := skip_ws s7 in
                              match s8 with
                              | String q _ =>
                                  if Ascii.eqb q (byte 34) then
                                    object_loop fuel' doc s8 pairs
                                  else decode_error
                                         "Expecting property name enclosed in double quotes"
                                         doc s8
                              | EmptyString =>
                                  decode_error
                                    "Expecting property name enclosed in double quotes"
                                    doc s8
                              end
                            else decode_error "Expecting ',' delimiter" doc s6
                        | EmptyString => decode_error "Expecting ',' delimiter" doc s6
                        end
                    end
                  else decode_error "Expecting ':' delimiter" doc s3
              | EmptyString => decode_error "Expecting ':' delimiter" doc s3
              end
          end
      end
  end

(** One turn of the [while True] of [JSONArray]; [s] starts at an element
    and [values] holds the elements read so far. *)
with array_loop (fuel : nat) (doc s : string) (values : list value)
       {struct fuel} : outcome (value * string) :=
  match fuel with
  | O => recursion_error
  | S fuel' =>
      match scan_once fuel' doc s with
      | Raise e => Raise e
      | Return (v, s1) =>
          let values := (values ++ [v])%list in
          let s2 := skip_ws s1 in
          match s2 with
          | String delim s3 =>
              if Ascii.eqb delim "]" then Return (VList values, s3)
              else if Ascii.eqb delim "," then array_loop fuel' doc (skip_ws s3) values
              else decode_error "Expecting ',' delimiter" doc s2
          | EmptyString => decode_error "Expecting ',' delimiter" doc s2
          end
      end
  end.

(** U+FEFF as UTF-8. *)
Definition bom : string := String (byte 239) (String (byte 187) (String (byte 191) EmptyString)).

(** [json.loads(s)]: [JSONDecoder.decode] after the byte-order-mark check. *)
Definition loads (s : string) : outcome value :=
  match strip_prefix bom s with
  | Some _ => Raise (JSONDecodeError "Unexpected UTF-8 BOM (decode using utf-8-sig)" s 0)
  | None =>
      match scan_once (2 * String.length s + 2) s (skip_ws s) with
      | Raise e => Raise e
      | Return (obj, rest) =>
          match skip_ws rest with
          | EmptyString => Return obj
          | rest' => decode_error "Extra data" s rest'
          end
      end
  end.

(** *** [json.dumps]

    The encoder with its default separators, for the values above.  The
    application never calls it; it is the re-serialization that the
    idempotence property speaks of. *)

(** [str(z)] *)
Definition str_of_Z (z : Z) : string := NilEmpty.string_of_int (Z.to_int z).

Definition hex_digit (n : N) : ascii :=
  (if n <? 10 then byteN (48 + n) else byteN (87 + n))%N.

(** ['\\u{0:04x}'.format(n)] *)
Definition u_escape (n : N) : string :=
  ("\u" ++ String (hex_digit (n / 4096 mod 16))
             (String (hex_digit (n / 256 mod 16))
                (String (hex_digit (n / 16 mod 16))
                   (String (hex_digit (n mod 16)) EmptyString))))%N.

(** [ESCAPE_DCT]: the short escapes. *)
Definition short_escape (n : N) : option string :=
  match n with
  | 34%N => Some (String "\" (String (byte 34) EmptyString))
  | 92%N => Some "\\"
  | 8%N => Some "\b"
  | 12%N => Some "\f"
  | 10%N => Some "\n"
  | 13%N => Some "\r"
  | 9%N => Some "\t"
  | _ => None
  end.

(** The code points of a UTF-8 string. *)
Fixpoint code_points (fuel : nat) (s : string) : list N :=
  match fuel with
  | O => []
  | S fuel' =>
      match s with
      | EmptyString => []
      | String a s1 =>
          let n := N_of_ascii a in
          let cont (b : ascii) := (N_of_ascii b - 128)%N in
          match s1 with
          | String b s2 =>
              if ((192 <=? n) && (n <? 224))%N then
                ((n - 192) * 64 + cont b)%N :: code_points fuel' s2
              else
                match s2 with
                | String c s3 =>
                    if ((224 <=? n) && (n <? 240))%N then
                      (((n - 224) * 64 + cont b) * 64 + cont c)%N :: code_points fuel' s3
                    else
                      match s3 with
                      | String d s4 =>
                          if (240 <=? n)%N then
                            ((((n - 240) * 64 + cont b) * 64 + cont c) * 64 + cont d)%N
                              :: code_points fuel' s4
                          else n :: code_points fuel' s1
                      | EmptyString => n :: code_points fuel' s1
                      end
                | EmptyString => n :: code_points fuel' s1
                end
          | EmptyString => [n]
          end
      end
  end.

(** The replacement [encode_basestring_ascii] makes for one code point. *)
Definition escape_ascii (n : N) : string :=
  match short_escape n with
  | Some e => e
  | None =>
      if ((32 <=? n) && (n <=? 126))%N then String (byteN n) EmptyString
      else if (n <? 65536)%N then u_escape n
      else
        let m := (n - 65536)%N in
        u_escape (55296 + m / 1024 mod 1024) ++ u_escape (56320 + m mod 1024)
  end.

(** [encode_basestring_ascii(s)] *)
Definition encode_basestring_ascii (s : string) : string :=
  String (byte 34)
    (fold_right (fun n acc => escape_ascii n ++ acc) (String (byte 34) EmptyString)
                (code_points (String.length s) s)).

(** The replacement [encode_basestring] makes for one character; only
    ASCII characters are replaced, so it works byte by byte. *)
Definition escape_byte (a : ascii) : string :=
  let n := N_of_ascii a in
  match short_escape n with
  | Some e => e
  | None => if (n <? 32)%N then u_escape n else String a EmptyString
  end.

Fixpoint escape_bytes (s : string) : string :=
  match s with
  | EmptyString => EmptyString
  | String a s' => escape_byte a ++ escape_bytes s'
  end.

(** [encode_basestring(s)] *)
Definition encode_basestring (s : string) : string :=
  String (byte 34) (escape_bytes s ++ String (byte 34) EmptyString).

Definition encode_string (ensure_ascii : bool) (s : string) : string :=
  if ensure_ascii then encode_basestring_ascii s else encode_basestring s.

(** [json.dumps(v, ensure_ascii=ensure_ascii)] *)
Fixpoint dumps (ensure_ascii : bool) (v : value) : string :=
  match v with
  | VNone => "null"
  | VBool true => "true"
  | VBool false => "false"
  | VInt z => str_of_Z z
  | VFloat lexeme => lexeme
  | VStr s => encode_string ensure_ascii s
  | VList l => "[" ++ join ", " (map (dumps ensure_ascii) l) ++ "]"
  | VDict d =>
      "{" ++ join ", "
               (map (fun kv => encode_string ensure_ascii (fst kv) ++ ": "
                                 ++ dumps ensure_ascii (snd kv)) d)
          ++ "}"
  end.

(** *** Values that survive a round trip

    Definitions for the proof that [loads] undoes [dumps]. *)

(** What may follow a number for it to be read whole. *)
Definition number_ends (rest : string) : bool :=
  match rest with
  | EmptyString => true
  | String a _ =>
      negb (is_digit a || Ascii.eqb a "." || Ascii.eqb a "e" || Ascii.eqb a "E")
  end.

Definition not_digit (rest : string) : Prop :=
  match rest with String a _ => is_digit a = false | EmptyString => True end.

(** A decimal numeral without a superfluous leading zero. *)
Definition normal (d : Decimal.uint) : Prop :=
  d <> Decimal.Nil /\ forall d', d = Decimal.D0 d' -> d' = Decimal.Nil.

Fixpoint distinct (keys : list string) : bool :=
  match keys with
  | [] => true
  | k :: keys' => negb (existsb (String.eqb k) keys') && distinct keys'
  end.

(** No float, and no key twice in a dict. *)
Fixpoint plain (v : value) : bool :=
  match v with
  | VFloat _ => false
  | VList l => forallb plain l
  | VDict d => distinct (map fst d) && forallb (fun kv => plain (snd kv)) d
  | _ => true
  end.

(** Fuel that is enough to read a value back. *)
Fixpoint size (v : value) : nat :=
  match v with
  | VList l => S (fold_right (fun x n => S (size x + n)) 0 l)
  | VDict d => S (fold_right (fun kv n => S (size (snd kv) + n)) 0 d)
  | _ => 1
  end.

Definition items_fuel (l : list value) : nat :=
  fold_right (fun x n => S (size x + n)) 0 l.

Definition members_fuel (d : list (string * value)) : nat :=
  fold_right (fun kv n => S (size (snd kv) + n)) 0 d.

(** The characters a serialized value can start with. *)
Definition value_head (a : ascii) : bool :=
  is_digit a || Ascii.eqb a "-" || Ascii.eqb a "n" || Ascii.eqb a "t" || Ascii.eqb a "f"
  || Ascii.eqb a (byte 34) || Ascii.eqb a "[" || Ascii.eqb a "{".

(** The text of one [key: value] member. *)
Definition member (kv : string * value) : string :=
  encode_basestring (fst kv) ++ ": " ++ dumps false (snd kv).

(** What the induction carries for one value. *)
Definition reads_back (v : value) : Prop :=
  forall f doc rest,
    size v <= f -> number_ends rest = true ->
    scan_once f doc (dumps false v ++ rest) = Return (v, rest).

(** *** Fuel is never exhausted *)

(** The outcome is a value with at most [n] characters left to read, or a
    decode error: the decoder did not run out of fuel. *)
Definition bounded (n : nat) (o : outcome (value * string)) : Prop :=
  match o with
  | Return (_, rest) => String.length rest <= n
  | Raise (JSONDecodeError _ _ _) => True
  | Raise (Exception _) => False
  end.

Definition bounded_string (n : nat) (o : outcome (string * string)) : Prop :=
  match o with
  | Return (_, rest) => String.length rest < n
  | Raise (JSONDecodeError _ _ _) => True
  | Raise (Exception _) => False
  end.

(** The three mutually recursive functions stay within fuel [f]. *)
Definition within_fuel (f : nat) : Prop :=
  (forall doc s, 2 * String.length s + 1 <= f ->
     bounded (String.length s) (scan_once f doc s))
  /\ (forall doc s pairs, 2 * String.length s + 1 <= f ->
        bounded (String.length s) (object_loop f doc s pairs))
  /\ (forall doc s values, 2 * String.length s + 2 <= f ->
        bounded (String.length s) (array_loop f doc s values)).

End Json.

Import Py Py.Notations.
Local Open Scope string_scope.

(** Text containing double quotes is written with apostrophes and passed
    through [dquoted], which turns every apostrophe into a double quote. *)
Fixpoint dquoted (s : string) : string :=
  match s with
  | EmptyString => EmptyString
  | String a s' => String (if Ascii.eqb a "'"%char then byte 34 else a) (dquoted s')
  end.

(** ** The application *)

(** [prompts["rank"]], the only template the bulk path uses. *)
Definition prompts_rank : string := dquoted
"You are an expert HR manager. Analyze the following resumes and rank them from best to worst match for the job description.
    For each resume, provide:
    1. Match percentage (0-100)
    2. Key strengths
    3. Major gaps
    4. Overall ranking (1 being best)
    
    Format your response as a JSON with the following structure:
    {
        'rankings': [
            {
                'resume_name': 'filename.pdf',
                'match_percentage': 85,
                'rank': 1,
                'strengths': ['skill1', 'skill2'],
                'gaps': ['gap1', 'gap2']
            }
        ]
    }".

(** A Streamlit [UploadedFile]: its [name] and the bytes [read()] returns. *)
Record uploaded_file : Type := { file_name : string; file_bytes : string }.

(** One element of [all_resumes]: [{"name": ..., "content": ...}]. *)
Record resume : Type := { name : string; content : string }.

(** The dict comprehension that [process_bulk_resumes] writes out four
    times (lines 163-174, 178-189, 193-204 and 210-221), once. *)
Definition fallback_entry (idx : nat) (r : resume) : value :=
  VDict [ ("resume_name", VStr (name r));
          ("match_percentage", VInt 0);
          ("rank", VInt (Z.of_nat idx + 1));
          ("strengths", VList [VStr "Unable to analyze strengths"]);
          ("gaps", VList [VStr "Unable to analyze gaps"]) ].

Definition fallback_rankings (all_resumes : list resume) : value :=
  VDict [ ("rankings",
           VList (map (fun ir => fallback_entry (fst ir) (snd ir))
                      (enumerate all_resumes))) ].

(** [not isinstance(rankings, dict) or "rankings" not in rankings] *)
Definition fails_validation (rankings : value) : bool :=
  negb (isinstance_dict rankings)
  || negb (match rankings with VDict d => dict_has "rankings" d | _ => false end).

Section App.

(** The three library calls the application makes. *)

(** [json.loads] on a [str]. *)
Variable json_loads : string -> outcome value.

(** [fitz.open(stream=..., filetype="pdf")] followed by [page.get_text()]
    on every page: the page texts, or the exception PyMuPDF raised. *)
Variable fitz_page_texts : string -> outcome (list string).

(** [genai.GenerativeModel(DEFAULT_MODEL).generate_content(parts)]: the
    [text] of the response ([None] when it has no such attribute), or the
    exception raised. *)
Variable generate_content : list string -> outcome (option string).

Definition get_gemini_response (input_text pdf_content prompt : string) : M string :=
  try_except
    (response <- lift (generate_content [input_text; pdf_content; prompt]) ;;
     match response with
     | Some text => ret text
     | None => ret "❌ Error: Unexpected response format from Gemini API."
     end)
    is_Exception
    (fun e => ret ("❌ API Error: " ++ str_exn e)).

Definition extract_text_from_pdf (file : uploaded_file) : M string :=
  try_except
    (pages <- lift (fitz_page_texts (file_bytes file)) ;;
     let text := join nl pages in
     ret (strip text))
    is_Exception
    (fun e =>
       emit (st_error ("❌ Error reading PDF: " ++ str_exn e)) ;;
       ret EmptyString).

(** The [for file in uploaded_files] loop of lines 127-135. *)
Fixpoint read_resumes (uploaded_files : list uploaded_file) (all_resumes : list resume)
  : M (list resume) :=
  match uploaded_files with
  | [] => ret all_resumes
  | file :: rest =>
      all_resumes' <-
        try_except
          (content <- extract_text_from_pdf file ;;
           ret (all_resumes ++ [ {| name := file_name file; content := content |} ])%list)
          is_Exception
          (fun e =>
             emit (st_error ("Error processing " ++ file_name file ++ ": " ++ str_exn e)) ;;
             ret all_resumes) ;;
      read_resumes rest all_resumes'
  end.

(** Lines 141-143. *)
Definition combined_prompt (job_description : string) (all_resumes : list resume) : string :=
  fold_left
    (fun prompt r =>
       prompt ++ nl ++ "Resume: " ++ name r ++ nl ++ content r ++ nl ++ "---" ++ nl)
    all_resumes
    ("Job Description:" ++ nl ++ job_description ++ nl ++ nl ++ "Resumes to analyze:" ++ nl).

(** Lines 154-189: the inner [try], entered when the direct parse raised
    [JSONDecodeError]. *)
Definition extract_json (response : string) (all_resumes : list resume) : M value :=
  try_except
    (let start_idx := find response "{" in
     let end_idx := (rfind response "}" + 1)%Z in
     if negb (start_idx =? -1)%Z && negb (end_idx =? 0)%Z then
       let json_str := slice response start_idx end_idx in
       lift (json_loads json_str)
     else
       ret (fallback_rankings all_resumes))
    is_Exception
    (fun e =>
       emit (st_warning ("Could not parse JSON response: " ++ str_exn e)) ;;
       ret (fallback_rankings all_resumes)).

(** Lines 148-206: parse the response, validate, return. *)
Definition parse_and_validate (response : string) (all_resumes : list resume) : M value :=
  rankings <-
    try_except
      (lift (json_loads response))
      is_JSONDecodeError
      (fun _ => extract_json response all_resumes) ;;
  let rankings :=
    if fails_validation rankings then fallback_rankings all_resumes else rankings in
  ret rankings.

(** The handler of the outer [try], lines 207-221. *)
Definition analysis_failed (all_resumes : list resume) (e : exn) : M value :=
  emit (st_error ("Error analyzing resumes: " ++ str_exn e)) ;;
  ret (fallback_rankings all_resumes).

(** The ranking-response normalizer: what [process_bulk_resumes] does with
    the text [response] once [get_gemini_response] has returned it. *)
Definition normalizer (response : string) (all_resumes : list resume) : M value :=
  try_except (parse_and_validate response all_resumes)
             is_Exception (analysis_failed all_resumes).

(** [None] is Python's [None]. *)
Definition process_bulk_resumes (job_description : string)
    (uploaded_files : list uploaded_file) : M (option value) :=
  all_resumes <- read_resumes uploaded_files [] ;;
  match all_resumes with
  | [] => ret None
  | _ :: _ =>
      let combined_prompt := combined_prompt job_description all_resumes in
      rankings <-
        try_except
          (response <- get_gemini_response combined_prompt EmptyString prompts_rank ;;
           parse_and_validate response all_resumes)
          is_Exception (analysis_failed all_resumes) ;;
      ret (Some rankings)
  end.

End App.

(** ** Reading the result *)

(** [v["rankings"]] when [v] is a dict whose [rankings] is a list. *)
Definition rankings_of (v : value) : option (list value) :=
  match v with
  | VDict d =>
      match dict_get "rankings" d with
      | Some (VList l) => Some l
      | _ => None
      end
  | _ => None
  end.

(** The entry the fallback holds for the resume at position [idx]. *)
Definition unanalyzed (idx : nat) (resume_name : string) : value :=
  VDict [ ("resume_name", VStr resume_name);
          ("match_percentage", VInt 0);
          ("rank", VInt (Z.of_nat idx + 1));
          ("strengths", VList [VStr "Unable to analyze strengths"]);
          ("gaps", VList [VStr "Unable to analyze gaps"]) ].

Section Chain.

Variable json_loads : string -> outcome value.

(** The test of line 158 and the substring of line 159. *)
Definition has_braces (response : string) : bool :=
  negb (find response "{" =? -1)%Z && negb (rfind response "}" + 1 =? 0)%Z.

Definition json_str (response : string) : string :=
  slice response (find response "{") (rfind response "}" + 1).

(** The structured value the code gets hold of, if any: the direct parse,
    or, when that raised [JSONDecodeError], the parse of the text between
    the braces. *)
Definition recovered (response : string) : option value :=
  match json_loads response with
  | Return v => Some v
  | Raise (JSONDecodeError _ _ _) =>
      if has_braces response then
        match json_loads (json_str response) with
        | Return v => Some v
        | Raise _ => None
        end
      else None
  | Raise (Exception _) => None
  end.

(** Fallback synthesis is what happens when nothing was recovered, or what
    was recovered fails the check of line 192. *)
Definition fallback_triggered (response : string) : bool :=
  match recovered response with
  | Some v => fails_validation v
  | None => true
  end.

(** *** The chain as the specification words it

    Step 1 succeeds only with a value that passes Validation; step 2 is
    tried whenever step 1 did not succeed; step 3 is the fallback.
    Validation asks for a record whose [rankings] is a sequence. *)
Definition spec_valid (v : value) : bool :=
  match rankings_of v with Some _ => true | None => false end.

Definition spec_direct_parse (raw : string) : option value :=
  match json_loads raw with
  | Return v => if spec_valid v then Some v else None
  | Raise _ => None
  end.

Definition spec_substring_extraction (raw : string) : option value :=
  let first := find raw "{" in
  let last := rfind raw "}" in
  if negb (first =? -1)%Z && negb (last =? -1)%Z && (first <? last)%Z then
    match json_loads (substring (Z.to_nat first) (Z.to_nat (last - first + 1)) raw) with
    | Return v => if spec_valid v then Some v else None
    | Raise _ => None
    end
  else None.

Definition spec_normalizer (raw : string) (resumes : list resume) : value :=
  match spec_direct_parse raw with
  | Some v => v
  | None =>
      match spec_substring_extraction raw with
      | Some v => v
      | None => fallback_rankings resumes
      end
  end.

End Chain.

(** Three resumes for the concrete runs. *)
Definition resume_A : resume := {| name := "A.pdf"; content := "Alice" |}.
Definition resume_B : resume := {| name := "B.pdf"; content := "Bob" |}.
Definition resume_C : resume := {| name := "C.pdf"; content := "Carol" |}.

(** The response of the specification's example: an object between two
    pieces of prose, and the structure it holds. *)
Definition prose_response : string := dquoted
  "Here is the result: {'rankings': [{'resume_name': 'A.pdf', 'match_percentage': 85, 'rank': 1, 'strengths': ['Python'], 'gaps': ['SQL']}]} Thanks!".

Definition embedded_rankings : value :=
  VDict [ ("rankings",
           VList [ VDict [ ("resume_name", VStr "A.pdf");
                           ("match_percentage", VInt 85);
                           ("rank", VInt 1);
                           ("strengths", VList [VStr "Python"]);
                           ("gaps", VList [VStr "SQL"]) ] ]) ].

(** Stand-ins for the two services in the concrete runs: data that begins
    with the PDF marker opens as one page holding the rest, anything else
    fails to open; the model answers with prose. *)
Definition demo_fitz (data : string) : outcome (list string) :=
  match Json.strip_prefix "%PDF-" data with
  | Some text => Return [text]
  | None => Raise (Exception "Failed to open stream")
  end.

Definition demo_generate (parts : list string) : outcome (option string) :=
  Return (Some "I could not rank these resumes.").

Definition file_A : uploaded_file := {| file_name := "A.pdf"; file_bytes := "%PDF-Alice" |}.
Definition file_B : uploaded_file := {| file_name := "B.pdf"; file_bytes := "not a pdf" |}.
Definition file_C : uploaded_file := {| file_name := "C.pdf"; file_bytes := "%PDF-Carol" |}.

(** What [extract_text_from_pdf] returns for a file. *)
Definition extracted (fitz_page_texts : string -> outcome (list string))
    (file : uploaded_file) : string :=
  match fitz_page_texts (file_bytes file) with
  | Return pages => strip (join nl pages)
  | Raise _ => EmptyString
  end.

(** The element of [all_resumes] a file gives rise to. *)
Definition resume_of (fitz_page_texts : string -> outcome (list string))
    (file : uploaded_file) : resume :=
  {| name := file_name file; content := extracted fitz_page_texts file |}.

(** A response whose entries are malformed, and the value it parses to. *)
Definition malformed_response : string := dquoted
  "{'rankings': [{'resume_name': 7, 'rank': 'first'}, 'no entry at all']}".

Definition malformed_rankings : value :=
  VDict [ ("rankings",
           VList [ VDict [("resume_name", VInt 7); ("rank", VStr "first")];
                   VStr "no entry at all" ]) ].

(** ** The rest of the page *)

(** The other four entries of [prompts] (lines 14-41). *)
Definition prompts_review : string :=
"You are an experienced Technical Human Resource Manager. Review the resume against the job description and provide:
    1. Overall match percentage
    2. Key strengths
    3. Areas for improvement
    4. Specific recommendations
    Format your response in clear sections with bullet points.".

Definition prompts_improve : string :=
"You are a skilled ATS scanner. Analyze the resume and provide:
    1. Missing technical skills
    2. Required certifications
    3. Experience gaps
    4. Actionable improvement steps
    Format your response in clear sections.".

Definition prompts_keywords : string :=
"Identify and categorize missing keywords from the resume based on the job description:
    1. Technical skills
    2. Soft skills
    3. Tools and technologies
    4. Industry-specific terms
    Format as a bulleted list.".

Definition prompts_match : string :=
"Provide a detailed match analysis:
    1. Overall match percentage
    2. Missing keywords
    3. Strengths
    4. Areas for improvement
    5. Final recommendations
    Format with clear sections and bullet points.".

(** What the four buttons of the first tab have in common (lines 262-265,
    290-293, 337-341 and 345-349): under the guard
    [uploaded_file and input_text.strip()] the text of the PDF is extracted
    and sent with the job description and the button's prompt; the
    response is what [st.markdown] then shows.  When the guard fails the
    click does nothing.  [uploaded_file] is [None] while nothing is
    uploaded. *)
Definition analysis_button
    (fitz_page_texts : string -> outcome (list string))
    (generate_content : list string -> outcome (option string))
    (prompt input_text : string) (uploaded_file : option uploaded_file)
  : M (option string) :=
  match uploaded_file with
  | Some file =>
      if negb (String.eqb (strip input_text) EmptyString) then
        pdf_content <- extract_text_from_pdf fitz_page_texts file ;;
        response <- get_gemini_response generate_content input_text pdf_content prompt ;;
        ret (Some response)
      else ret None
  | None => ret None
  end.

(** The string [get_gemini_response] returns. *)
Definition gemini_text (generate_content : list string -> outcome (option string))
    (input_text pdf_content prompt : string) : string :=
  match generate_content [input_text; pdf_content; prompt] with
  | Return (Some text) => text
  | Return None => "❌ Error: Unexpected response format from Gemini API."
  | Raise e => "❌ API Error: " ++ str_exn e
  end.

(** The notices the loop over the uploaded files leaves behind. *)
Definition reading_notices (fitz_page_texts : string -> outcome (list string))
    (uploaded_files : list uploaded_file) : list notice :=
  flat_map
    (fun file =>
       match fitz_page_texts (file_bytes file) with
       | Return _ => []
       | Raise e => [st_error ("❌ Error reading PDF: " ++ str_exn e)]
       end)
    uploaded_files.

(** The two parts of the combined prompt. *)
Definition prompt_header (job_description : string) : string :=
  "Job Description:" ++ nl ++ job_description ++ nl ++ nl ++ "Resumes to analyze:" ++ nl.

Definition prompt_block (r : resume) : string :=
  nl ++ "Resume: " ++ name r ++ nl ++ content r ++ nl ++ "---" ++ nl.

(** A field of a ranking entry. *)
Definition entry_field (k : string) (entry : value) : option value :=
  match entry with
  | VDict d => dict_get k d
  | _ => None
  end.

(** A response in a Markdown code fence. *)
Definition fenced (body : string) : string :=
  "```json" ++ nl ++ body ++ nl ++ "```".

(** A model that fails: the request raises. *)
Definition failing_generate (parts : list string) : outcome (option string) :=
  Raise (Exception "429 quota exceeded").

(** The characters a JSON document can start with, whitespace and the
    first byte of a byte-order mark apart. *)
Definition document_head (a : ascii) : bool :=
  Json.value_head a || Ascii.eqb a "N" || Ascii.eqb a "I"
  || Json.is_ws a || Ascii.eqb a (byte 239).

(** [generate_analysis_report]; [now] is what
    [datetime.now().strftime("%Y-%m-%d %H:%M:%S")] gives when the report is
    written. *)
Definition generate_analysis_report (now : string)
    (response job_description resume_content : string) : string :=
  nl ++ "# Resume Analysis Report" ++ nl
     ++ "Generated on: " ++ now ++ nl
     ++ nl
     ++ "## Job Description" ++ nl
     ++ job_description ++ nl
     ++ nl
     ++ "## Resume Content" ++ nl
     ++ resume_content ++ nl
     ++ nl
     ++ "## Analysis Results" ++ nl
     ++ response ++ nl
     ++ "    ".

(** ** Properties *)

(** *** The fallback value *)

Lemma enumerate_from_length {A} (l : list A) i :
  List.length (enumerate_from i l) = List.length l.
Proof.
  revert i; induction l as [|x l IH]; intros i; simpl; [reflexivity|].
  now rewrite IH.
Qed.

Lemma enumerate_from_nth {A} (l : list A) i k x :
  nth_error l k = Some x ->
  nth_error (enumerate_from i l) k = Some (i + k, x).
Proof.
  revert i k; induction l as [|y l IH]; intros i k H.
  - destruct k; discriminate.
  - destruct k as [|k]; simpl in *.
    + injection H as ->. now rewrite Nat.add_0_r.
    + rewrite (IH (S i) k H). f_equal. f_equal. lia.
Qed.

Lemma fallback_entry_unanalyzed idx r :
  fallback_entry idx r = unanalyzed idx (name r).
Proof. reflexivity. Qed.

Lemma fallback_rankings_of rs :
  rankings_of (fallback_rankings rs)
  = Some (map (fun ir => fallback_entry (fst ir) (snd ir)) (enumerate rs)).
Proof. reflexivity. Qed.

Lemma fallback_length rs l :
  rankings_of (fallback_rankings rs) = Some l -> List.length l = List.length rs.
Proof.
  rewrite fallback_rankings_of. intros [= <-].
  rewrite length_map. apply enumerate_from_length.
Qed.

Lemma fallback_nth rs l k r :
  rankings_of (fallback_rankings rs) = Some l ->
  nth_error rs k = Some r ->
  nth_error l k = Some (unanalyzed k (name r)).
Proof.
  rewrite fallback_rankings_of. intros [= <-] H.
  rewrite nth_error_map. unfold enumerate.
  now rewrite (enumerate_from_nth rs 0 k r H).
Qed.

Lemma fallback_passes rs : fails_validation (fallback_rankings rs) = false.
Proof. reflexivity. Qed.

Lemma dict_has_get k d :
  dict_has k d = true <-> exists x, dict_get k d = Some x.
Proof.
  induction d as [|[k' v] d IH]; simpl.
  - split; [discriminate | intros [x H]; discriminate].
  - destruct (String.eqb k' k); simpl.
    + split; [intros _; now exists v | reflexivity].
    + exact IH.
Qed.

Lemma passes_validation v :
  fails_validation v = false <-> exists d, v = VDict d /\ dict_has "rankings" d = true.
Proof.
  unfold fails_validation. split.
  - destruct v; simpl; try discriminate.
    intros H. exists d. split; [reflexivity|].
    now destruct (dict_has "rankings" d).
  - intros [d [-> H]]. simpl. now rewrite H.
Qed.

(** *** Searching and slicing *)

Lemma get_Some_lt s n c : String.get n s = Some c -> (n < String.length s)%nat.
Proof.
  revert n; induction s as [|a s IH]; intros [|n] H; simpl in *; try discriminate.
  - lia.
  - apply IH in H. lia.
Qed.

Lemma find_from_spec c s i :
  find_from c s i = (-1)%Z
  \/ exists n, find_from c s i = (i + Z.of_nat n)%Z /\ String.get n s = Some c.
Proof.
  revert i; induction s as [|a s IH]; intros i; simpl.
  - now left.
  - destruct (Ascii.eqb_spec a c) as [->|N].
    + right. exists 0%nat. split; [lia | reflexivity].
    + destruct (IH (i + 1)%Z) as [H|[n [H G]]]; [now left|].
      right. exists (S n). split; [lia | exact G].
Qed.

Lemma rfind_from_spec c s i last :
  rfind_from c s i last = last
  \/ exists n, rfind_from c s i last = (i + Z.of_nat n)%Z /\ String.get n s = Some c.
Proof.
  revert i last; induction s as [|a s IH]; intros i last; simpl.
  - now left.
  - destruct (Ascii.eqb_spec a c) as [->|N].
    + destruct (IH (i + 1)%Z i) as [H|[n [H G]]].
      * right. exists 0%nat. split; [lia | reflexivity].
      * right. exists (S n). split; [lia | exact G].
    + destruct (IH (i + 1)%Z last) as [H|[n [H G]]]; [now left|].
      right. exists (S n). split; [lia | exact G].
Qed.

Lemma find_spec s c :
  find s c = (-1)%Z
  \/ exists n, find s c = Z.of_nat n /\ String.get n s = Some c.
Proof.
  unfold find. destruct (find_from_spec c s 0) as [H|[n [H G]]]; [now left|].
  right. exists n. split; [lia | exact G].
Qed.

Lemma rfind_spec s c :
  rfind s c = (-1)%Z
  \/ exists n, rfind s c = Z.of_nat n /\ String.get n s = Some c.
Proof.
  unfold rfind. destruct (rfind_from_spec c s 0 (-1)) as [H|[n [H G]]]; [now left|].
  right. exists n. split; [lia | exact G].
Qed.

Lemma substring_none n s : substring n 0 s = EmptyString.
Proof.
  revert n; induction s as [|a s IH]; intros [|n]; simpl; auto.
Qed.

(** Within bounds a slice is the substring of that position and length. *)
Lemma slice_within s i j :
  (0 <= i)%Z -> (i <= len s)%Z -> (0 <= j)%Z -> (j <= len s)%Z ->
  slice s i j = substring (Z.to_nat i) (Z.to_nat (j - i)) s.
Proof.
  intros Hi Hi' Hj Hj'. unfold slice, adjust_index.
  destruct (Z.ltb_spec i 0); [lia|]. destruct (Z.ltb_spec j 0); [lia|].
  now rewrite !Z.min_l by lia.
Qed.

(** A slice whose end does not lie after its start is empty. *)
Lemma slice_empty s i j :
  (0 <= i)%Z -> (0 <= j)%Z -> (j <= i)%Z -> slice s i j = EmptyString.
Proof.
  intros Hi Hj Hji. unfold slice, adjust_index.
  destruct (Z.ltb_spec i 0); [lia|]. destruct (Z.ltb_spec j 0); [lia|].
  replace (Z.to_nat (Z.min j (len s) - Z.min i (len s))) with 0%nat by lia.
  apply substring_none.
Qed.

Lemma validation_key d :
  (exists x, dict_get "rankings" d = Some x) -> fails_validation (VDict d) = false.
Proof.
  intros H. apply passes_validation. exists d. split; [reflexivity|].
  now apply dict_has_get.
Qed.

(** *** The monad *)

Lemma result_bind {A B} (m : M A) (k : A -> M B) :
  result (bind m k)
  = match result m with
    | Return a => result (k a)
    | Raise e => Raise e
    end.
Proof.
  destruct m as [log [a|e]]; simpl; [|reflexivity].
  now destruct (k a).
Qed.

(** *** What the normalizer returns *)

Section Normalizer.

Variable json_loads : string -> outcome value.

(** The inner [try] always ends with a value: its handler catches
    whatever the second parse raises. *)
Lemma extract_json_result response rs :
  result (extract_json json_loads response rs)
  = Return (if has_braces response then
              match json_loads (json_str response) with
              | Return v => v
              | Raise _ => fallback_rankings rs
              end
            else fallback_rankings rs).
Proof.
  unfold extract_json, has_braces, json_str.
  destruct (negb (find response "{" =? -1)%Z && negb (rfind response "}" + 1 =? 0)%Z).
  - destruct (json_loads _) as [v|e]; reflexivity.
  - reflexivity.
Qed.

Lemma normalizer_result response rs :
  result (normalizer json_loads response rs)
  = Return (match recovered json_loads response with
            | Some v => if fails_validation v then fallback_rankings rs else v
            | None => fallback_rankings rs
            end).
Proof.
  unfold normalizer, parse_and_validate, recovered.
  destruct (json_loads response) as [v|[msg doc pos|msg]] eqn:E.
  - reflexivity.
  - pose proof (extract_json_result response rs) as H.
    simpl. destruct (extract_json json_loads response rs) as [log [v|e]].
    + simpl in H. injection H as ->. simpl.
      destruct (has_braces response).
      * destruct (json_loads (json_str response)); reflexivity.
      * reflexivity.
    + discriminate.
  - reflexivity.
Qed.

Lemma normalizer_returns response rs :
  exists log v, normalizer json_loads response rs = (log, Return v).
Proof.
  pose proof (normalizer_result response rs) as H.
  destruct (normalizer json_loads response rs) as [log [v|e]]; simpl in H; [|discriminate].
  now exists log, v.
Qed.

(** A response that parses is returned, or replaced by the fallback,
    without any notice. *)
Lemma normalizer_parsed response rs v :
  json_loads response = Return v ->
  normalizer json_loads response rs
  = ([], Return (if fails_validation v then fallback_rankings rs else v)).
Proof.
  intros E. unfold normalizer, parse_and_validate. now rewrite E.
Qed.

Lemma normalizer_other_exception response rs msg :
  json_loads response = Raise (Exception msg) ->
  normalizer json_loads response rs
  = ([st_error ("Error analyzing resumes: " ++ msg)], Return (fallback_rankings rs)).
Proof.
  intros E. unfold normalizer, parse_and_validate. now rewrite E.
Qed.

Lemma normalizer_decode_error response rs msg doc pos :
  json_loads response = Raise (JSONDecodeError msg doc pos) ->
  result (normalizer json_loads response rs)
  = Return (if has_braces response then
              match json_loads (json_str response) with
              | Return v => if fails_validation v then fallback_rankings rs else v
              | Raise _ => fallback_rankings rs
              end
            else fallback_rankings rs).
Proof.
  intros E. rewrite normalizer_result. unfold recovered. rewrite E.
  destruct (has_braces response); [|reflexivity].
  destruct (json_loads (json_str response)); reflexivity.
Qed.

End Normalizer.

(** *** Serializing and parsing back *)

Section RoundTrip.
Import Json.

Lemma scanstring_escape_byte a f doc begin x t :
  scanstring (S f) doc begin (escape_byte a ++ String x t)
  = match scanstring f doc begin (String x t) with
    | Raise e => Raise e
    | Return (content, rest) => Return (String a content, rest)
    end.
Proof.
  destruct a as [[] [] [] [] [] [] [] []]; reflexivity.
Qed.

Lemma append_assoc (a b c : string) : (a ++ b) ++ c = a ++ (b ++ c).
Proof. induction a as [|x a IH]; simpl; [reflexivity | now rewrite IH]. Qed.

Lemma length_append (a b : string) :
  String.length (a ++ b) = String.length a + String.length b.
Proof. induction a as [|x a IH]; simpl; [reflexivity | now rewrite IH]. Qed.

Lemma scanstring_escaped s : forall f doc begin rest,
  String.length s < f ->
  scanstring f doc begin (escape_bytes s ++ String (byte 34) rest) = Return (s, rest).
Proof.
  induction s as [|a s IH]; intros f doc begin rest Hf.
  - destruct f as [|f]; [inversion Hf|]. reflexivity.
  - destruct f as [|f]; [inversion Hf|].
    simpl escape_bytes. rewrite append_assoc.
    pose proof (IH f doc begin rest ltac:(simpl in Hf; lia)) as E.
    destruct (escape_bytes s ++ String (byte 34) rest) as [|x t] eqn:T.
    + destruct f; discriminate E.
    + rewrite scanstring_escape_byte. now rewrite E.
Qed.

Lemma escape_byte_length a : 1 <= String.length (escape_byte a).
Proof. destruct a as [[] [] [] [] [] [] [] []]; simpl; lia. Qed.

Lemma escape_bytes_length s : String.length s <= String.length (escape_bytes s).
Proof.
  induction s as [|a s IH]; simpl; [lia|].
  rewrite length_append. pose proof (escape_byte_length a). lia.
Qed.

Lemma scan_once_quote f doc s1 :
  scan_once (S f) doc (String (byte 34) s1)
  = match scanstring (S (String.length s1)) doc (String (byte 34) s1) s1 with
    | Raise e => Raise e
    | Return (str, rest) => Return (VStr str, rest)
    end.
Proof. reflexivity. Qed.

Lemma encode_basestring_append s rest :
  encode_basestring s ++ rest
  = String (byte 34) (escape_bytes s ++ String (byte 34) rest).
Proof.
  unfold encode_basestring.
  change (String (byte 34) (escape_bytes s ++ String (byte 34) EmptyString) ++ rest)
    with (String (byte 34) ((escape_bytes s ++ String (byte 34) EmptyString) ++ rest)).
  now rewrite append_assoc.
Qed.

Lemma scan_once_string f doc s rest :
  scan_once (S f) doc (encode_basestring s ++ rest) = Return (VStr s, rest).
Proof.
  rewrite encode_basestring_append, scan_once_quote.
  rewrite scanstring_escaped; [reflexivity|].
  rewrite length_append. pose proof (escape_bytes_length s). lia.
Qed.

Lemma span_digits_uint d rest :
  not_digit rest ->
  span_digits (NilEmpty.string_of_uint d ++ rest) = (NilEmpty.string_of_uint d, rest).
Proof.
  intros H. induction d; simpl; try (rewrite IHd; reflexivity).
  destruct rest as [|a rest]; simpl; [reflexivity | now rewrite H].
Qed.

Lemma match_digits_uint d rest :
  normal d -> not_digit rest ->
  match_digits (NilEmpty.string_of_uint d ++ rest) = Some (NilEmpty.string_of_uint d, rest).
Proof.
  intros [N Z] H.
  pose proof (span_digits_uint d rest H) as SP.
  destruct d; try congruence; try (unfold match_digits; simpl in *; rewrite SP; reflexivity).
  rewrite (Z d eq_refl). reflexivity.
Qed.

Lemma pos_to_uint_normal p : normal (Pos.to_uint p).
Proof.
  split; [apply DecimalPos.Unsigned.to_uint_nonnil|].
  intros d' E.
  pose proof (DecimalPos.Unsigned.to_of (Pos.to_uint p)) as H.
  rewrite DecimalPos.Unsigned.of_to in H. simpl in H.
  assert (NZ : Decimal.nzhead (Pos.to_uint p) <> Decimal.Nil).
  { intros C. unfold Decimal.unorm in H. rewrite C in H.
    exact (DecimalPos.Unsigned.to_uint_nonzero p H). }
  rewrite (DecimalFacts.unorm_nzhead _ NZ) in H.
  rewrite E in H. destruct (DecimalFacts.nzhead_nonzero _ _ (eq_sym H)).
Qed.

Lemma number_ends_not_digit rest : number_ends rest = true -> not_digit rest.
Proof.
  destruct rest as [|a rest]; simpl; [trivial|].
  destruct (is_digit a); [discriminate | reflexivity].
Qed.

Lemma match_frac_ends rest : number_ends rest = true -> match_frac rest = (EmptyString, rest).
Proof.
  destruct rest as [|a rest]; simpl; [reflexivity|].
  destruct (is_digit a); [discriminate|]. simpl.
  destruct (Ascii.eqb a "."); [discriminate | reflexivity].
Qed.

Lemma match_exp_ends rest : number_ends rest = true -> match_exp rest = (EmptyString, rest).
Proof.
  destruct rest as [|a rest]; simpl; [reflexivity|].
  destruct (is_digit a); [discriminate|]. simpl.
  destruct (Ascii.eqb a "."); [discriminate|]. simpl.
  destruct (Ascii.eqb a "e"); [discriminate|].
  destruct (Ascii.eqb a "E"); [discriminate | reflexivity].
Qed.

Lemma match_integer_str z rest :
  number_ends rest = true ->
  match_integer (str_of_Z z ++ rest) = Some (str_of_Z z, rest).
Proof.
  intros E. apply number_ends_not_digit in E.
  unfold str_of_Z. destruct z as [|p|p]; simpl Z.to_int.
  - reflexivity.
  - pose proof (match_digits_uint _ rest (pos_to_uint_normal p) E) as H.
    simpl NilEmpty.string_of_int.
    destruct (pos_to_uint_normal p) as [N _].
    destruct (Pos.to_uint p); try congruence; exact H.
  - simpl NilEmpty.string_of_int.
    change (String "-" ?s ++ rest) with (String "-" (s ++ rest)).
    unfold match_integer. simpl Ascii.eqb. cbv iota.
    now rewrite (match_digits_uint _ rest (pos_to_uint_normal p) E).
Qed.

Lemma parse_int_str z : parse_int (str_of_Z z) = z.
Proof.
  unfold parse_int, str_of_Z. rewrite NilEmpty.isi. apply DecimalZ.of_to.
Qed.

Lemma match_number_str z rest :
  number_ends rest = true ->
  match_number (str_of_Z z ++ rest) = Some (VInt z, rest).
Proof.
  intros E. unfold match_number.
  rewrite (match_integer_str z rest E), (match_frac_ends rest E), (match_exp_ends rest E).
  now rewrite parse_int_str.
Qed.

(** The first character of a printed integer. *)
Lemma str_of_Z_head z :
  exists a s, str_of_Z z = String a s /\ (is_digit a || Ascii.eqb a "-") = true.
Proof.
  unfold str_of_Z. destruct z as [|p|p]; simpl.
  - now exists "0"%char, EmptyString.
  - destruct (pos_to_uint_normal p) as [N _].
    destruct (Pos.to_uint p); try congruence; simpl; eexists _, _; split; reflexivity.
  - eexists _, _; split; reflexivity.
Qed.

Lemma scan_once_number f doc a s r :
  (is_digit a || Ascii.eqb a "-") = true ->
  match_number (String a s) = Some r ->
  scan_once (S f) doc (String a s) = Return r.
Proof.
  intros D H.
  destruct a as [[] [] [] [] [] [] [] []]; try discriminate D;
    cbn -[match_number]; rewrite H; reflexivity.
Qed.

Lemma scan_once_int f doc z rest :
  number_ends rest = true ->
  scan_once (S f) doc (str_of_Z z ++ rest) = Return (VInt z, rest).
Proof.
  intros E. pose proof (match_number_str z rest E) as H.
  destruct (str_of_Z_head z) as [a [s [Hs D]]]. rewrite Hs in *.
  now apply scan_once_number.
Qed.

(** An induction principle that reaches into lists and dicts. *)
Lemma value_nested_ind (P : value -> Prop) :
  P VNone ->
  (forall b, P (VBool b)) ->
  (forall z, P (VInt z)) ->
  (forall lexeme, P (VFloat lexeme)) ->
  (forall s, P (VStr s)) ->
  (forall l, Forall P l -> P (VList l)) ->
  (forall d, Forall (fun kv => P (snd kv)) d -> P (VDict d)) ->
  forall v, P v.
Proof.
  intros HN HB HI HF HS HL HD. fix IH 1. intros [ |b|z|x|s|l|d].
  - exact HN.
  - apply HB.
  - apply HI.
  - apply HF.
  - apply HS.
  - apply HL. revert l. fix IHl 1. intros [|x l]; constructor; [apply IH | apply IHl].
  - apply HD. revert d. fix IHd 1. intros [|[k x] d]; constructor; [apply IH | apply IHd].
Qed.

Lemma dumps_head v :
  plain v = true -> exists a s, dumps false v = String a s /\ value_head a = true.
Proof.
  destruct v as [ |[]|z|x|s|l|d]; simpl; intros H; try discriminate;
    try (eexists _, _; split; reflexivity).
  destruct (str_of_Z_head z) as [a [s [E D]]]. exists a, s. split; [exact E|].
  unfold value_head. destruct (is_digit a); [reflexivity|].
  simpl in D. now rewrite D.
Qed.

Lemma value_head_facts a :
  value_head a = true ->
  is_ws a = false /\ Ascii.eqb a "]" = false /\ Ascii.eqb a "}" = false
  /\ Ascii.eqb (byte 239) a = false.
Proof.
  destruct a as [[] [] [] [] [] [] [] []]; intros H; try discriminate H;
    repeat split.
Qed.

Lemma skip_ws_head a s : is_ws a = false -> skip_ws (String a s) = String a s.
Proof. intros H. simpl. now rewrite H. Qed.

Lemma skip_ws_dumps v rest :
  plain v = true -> skip_ws (dumps false v ++ rest) = dumps false v ++ rest.
Proof.
  intros H. destruct (dumps_head v H) as [a [s [E D]]]. rewrite E.
  apply value_head_facts in D. now apply skip_ws_head.
Qed.

Lemma array_loop_eq f doc s values :
  array_loop (S f) doc s values
  = match scan_once f doc s with
    | Raise e => Raise e
    | Return (v, s1) =>
        match skip_ws s1 with
        | String delim s3 =>
            if Ascii.eqb delim "]" then Return (VList (values ++ [v]), s3)
            else if Ascii.eqb delim "," then
              array_loop f doc (skip_ws s3) (values ++ [v])
            else decode_error "Expecting ',' delimiter" doc (skip_ws s1)
        | EmptyString => decode_error "Expecting ',' delimiter" doc (skip_ws s1)
        end
    end.
Proof. reflexivity. Qed.

Lemma array_loop_items l :
  Forall reads_back l -> forallb plain l = true -> l <> [] ->
  forall acc f doc rest,
    items_fuel l <= f ->
    array_loop f doc (join ", " (map (dumps false) l) ++ String "]" rest) acc
    = Return (VList (acc ++ l), rest).
Proof.
  induction l as [|x l IH]; intros HR HP NE acc f doc rest Hf; [congruence|].
  inversion HR as [|? ? Rx Rl]; subst.
  simpl in HP. apply andb_true_iff in HP. destruct HP as [Px Pl].
  simpl in Hf. destruct f as [|f]; [lia|].
  rewrite array_loop_eq.
  destruct l as [|y l].
  - simpl join. rewrite (Rx f doc (String "]" rest)) by (trivial; lia).
    reflexivity.
  - change (join ", " (map (dumps false) (x :: y :: l)))
      with (dumps false x ++ ", " ++ join ", " (map (dumps false) (y :: l))).
    rewrite !append_assoc.
    rewrite (Rx f doc _) by (trivial; lia).
    change (", " ++ ?t) with (String "," (String " " t)).
    rewrite skip_ws_head by reflexivity.
    change (Ascii.eqb "," "]") with false. change (Ascii.eqb "," ",") with true.
    cbv iota.
    assert (SK : forall t, skip_ws (String " " (join ", " (map (dumps false) (y :: l)) ++ t))
                           = join ", " (map (dumps false) (y :: l)) ++ t).
    { intros t. change (skip_ws (String " " ?u)) with (skip_ws u).
      simpl in Pl. apply andb_true_iff in Pl. destruct Pl as [Py _].
      destruct l as [|z l].
      - simpl join. now apply skip_ws_dumps.
      - change (join ", " (map (dumps false) (y :: z :: l)))
          with (dumps false y ++ ", " ++ join ", " (map (dumps false) (z :: l))).
        rewrite append_assoc. now apply skip_ws_dumps. }
    rewrite SK.
    rewrite (IH Rl Pl) by (try discriminate; simpl in *; lia).
    now rewrite <- app_assoc.
Qed.

Lemma object_loop_eq f doc q s1 pairs :
  object_loop (S f) doc (String q s1) pairs
  = match scanstring (S (String.length s1)) doc (String q s1) s1 with
    | Raise e => Raise e
    | Return (key, s2) =>
        match skip_ws s2 with
        | String colon s4 =>
            if Ascii.eqb colon ":" then
              match scan_once f doc (skip_ws s4) with
              | Raise e => Raise e
              | Return (v, s5) =>
                  match skip_ws s5 with
                  | String delim s7 =>
                      if Ascii.eqb delim "}" then
                        Return (VDict (dict_of_pairs (pairs ++ [(key, v)])), s7)
                      else if Ascii.eqb delim "," then
                        match skip_ws s7 with
                        | String q' _ =>
                            if Ascii.eqb q' (byte 34) then
                              object_loop f doc (skip_ws s7) (pairs ++ [(key, v)])
                            else decode_error
                                   "Expecting property name enclosed in double quotes"
                                   doc (skip_ws s7)
                        | EmptyString =>
                            decode_error
                              "Expecting property name enclosed in double quotes"
                              doc (skip_ws s7)
                        end
                      else decode_error "Expecting ',' delimiter" doc (skip_ws s5)
                  | EmptyString => decode_error "Expecting ',' delimiter" doc (skip_ws s5)
                  end
              end
            else decode_error "Expecting ':' delimiter" doc (skip_ws s2)
        | EmptyString => decode_error "Expecting ':' delimiter" doc (skip_ws s2)
        end
    end.
Proof. reflexivity. Qed.

(** Reading one member: the key, the colon, the value. *)
Lemma object_loop_member f doc key v tail pairs :
  reads_back v -> plain v = true -> size v <= f -> number_ends tail = true ->
  object_loop (S f) doc (member (key, v) ++ tail) pairs
  = match skip_ws tail with
    | String delim s7 =>
        if Ascii.eqb delim "}" then
          Return (VDict (dict_of_pairs (pairs ++ [(key, v)])), s7)
        else if Ascii.eqb delim "," then
          match skip_ws s7 with
          | String q' _ =>
              if Ascii.eqb q' (byte 34) then
                object_loop f doc (skip_ws s7) (pairs ++ [(key, v)])
              else decode_error
                     "Expecting property name enclosed in double quotes" doc (skip_ws s7)
          | EmptyString =>
              decode_error
                "Expecting property name enclosed in double quotes" doc (skip_ws s7)
          end
        else decode_error "Expecting ',' delimiter" doc (skip_ws tail)
    | EmptyString => decode_error "Expecting ',' delimiter" doc (skip_ws tail)
    end.
Proof.
  intros R P Hf E. unfold member. simpl fst. simpl snd.
  rewrite !append_assoc, encode_basestring_append, object_loop_eq.
  rewrite scanstring_escaped
    by (rewrite length_append; pose proof (escape_bytes_length key); simpl; lia).
  change (": " ++ ?t) with (String ":" (String " " t)).
  rewrite skip_ws_head by reflexivity.
  change (Ascii.eqb ":" ":") with true. cbv iota.
  change (skip_ws (String " " ?u)) with (skip_ws u).
  rewrite (skip_ws_dumps v tail P), (R f doc tail Hf E).
  reflexivity.
Qed.

Lemma member_head kv t :
  exists s, member kv ++ t = String (byte 34) s.
Proof.
  unfold member. rewrite append_assoc, encode_basestring_append. eexists; reflexivity.
Qed.

Lemma members_head d t :
  d <> [] -> exists s, join ", " (map member d) ++ t = String (byte 34) s.
Proof.
  destruct d as [|kv [|kv' d]]; intros NE; [congruence| |].
  - simpl join. apply member_head.
  - change (join ", " (map member (kv :: kv' :: d)))
      with (member kv ++ ", " ++ join ", " (map member (kv' :: d))).
    rewrite append_assoc. apply member_head.
Qed.

Lemma object_loop_members d :
  Forall (fun kv => reads_back (snd kv)) d ->
  forallb (fun kv => plain (snd kv)) d = true -> d <> [] ->
  forall acc f doc rest,
    members_fuel d <= f ->
    object_loop f doc (join ", " (map member d) ++ String "}" rest) acc
    = Return (VDict (dict_of_pairs (acc ++ d)), rest).
Proof.
  induction d as [|[k x] d IH]; intros HR HP NE acc f doc rest Hf; [congruence|].
  inversion HR as [|? ? Rx Rd]; subst. simpl in Rx.
  simpl in HP. apply andb_true_iff in HP. destruct HP as [Px Pd].
  simpl in Hf. destruct f as [|f]; [lia|].
  destruct d as [|kv d].
  - simpl join.
    rewrite (object_loop_member f doc k x _ acc Rx Px) by (trivial; lia).
    reflexivity.
  - change (join ", " (map member ((k, x) :: kv :: d)))
      with (member (k, x) ++ ", " ++ join ", " (map member (kv :: d))).
    rewrite !append_assoc.
    rewrite (object_loop_member f doc k x _ acc Rx Px) by (trivial; lia).
    change (", " ++ ?t) with (String "," (String " " t)).
    rewrite skip_ws_head by reflexivity.
    change (Ascii.eqb "," "}") with false. change (Ascii.eqb "," ",") with true.
    cbv iota.
    change (skip_ws (String " " ?u)) with (skip_ws u).
    destruct (members_head (kv :: d) (String "}" rest)) as [s Hs]; [discriminate|].
    rewrite Hs. rewrite skip_ws_head by reflexivity.
    change (Ascii.eqb (byte 34) (byte 34)) with true. cbv iota.
    rewrite <- Hs.
    rewrite (IH Rd Pd) by (try discriminate; simpl in *; lia).
    now rewrite <- app_assoc.
Qed.

(** *** [dict(pairs)] on distinct keys *)

Lemma dict_set_fresh k v d :
  existsb (String.eqb k) (map fst d) = false -> dict_set k v d = (d ++ [(k, v)])%list.
Proof.
  induction d as [|[k' v'] d IH]; simpl; [reflexivity|].
  intros H. apply orb_false_iff in H. destruct H as [N H].
  rewrite String.eqb_sym, N. now rewrite IH.
Qed.

Lemma dict_of_pairs_from d : forall acc,
  distinct (map fst (acc ++ d)) = true ->
  fold_left (fun d kv => dict_set (fst kv) (snd kv) d) d acc = (acc ++ d)%list.
Proof.
  induction d as [|[k v] d IH]; intros acc H; simpl.
  - now rewrite app_nil_r.
  - assert (F : existsb (String.eqb k) (map fst acc) = false).
    { clear IH. induction acc as [|[k' v'] acc IHa]; simpl in *; [reflexivity|].
      apply andb_true_iff in H. destruct H as [N H].
      rewrite (IHa H), orb_false_r.
      apply negb_true_iff in N. rewrite map_app, existsb_app in N.
      apply orb_false_iff in N. destruct N as [_ N]. simpl in N.
      apply orb_false_iff in N. destruct N as [N _].
      now rewrite String.eqb_sym. }
    rewrite (dict_set_fresh k v acc F). rewrite IH; rewrite <- app_assoc; [reflexivity|exact H].
Qed.

Lemma dict_of_pairs_distinct d :
  distinct (map fst d) = true -> dict_of_pairs d = d.
Proof. intros H. unfold dict_of_pairs. now rewrite (dict_of_pairs_from d []). Qed.

Lemma scan_once_bracket f doc s1 :
  scan_once (S f) doc (String "[" s1)
  = match skip_ws s1 with
    | String q rest =>
        if Ascii.eqb q "]" then Return (VList [], rest)
        else array_loop f doc (skip_ws s1) []
    | EmptyString => array_loop f doc (skip_ws s1) []
    end.
Proof. reflexivity. Qed.

Lemma scan_once_brace f doc s1 :
  scan_once (S f) doc (String "{" s1)
  = match skip_ws s1 with
    | String q rest =>
        if Ascii.eqb q "}" then Return (VDict [], rest)
        else if Ascii.eqb q (byte 34) then object_loop f doc (skip_ws s1) []
        else decode_error "Expecting property name enclosed in double quotes"
               doc (skip_ws s1)
    | EmptyString =>
        decode_error "Expecting property name enclosed in double quotes" doc (skip_ws s1)
    end.
Proof. reflexivity. Qed.

Lemma items_head l t :
  forallb plain l = true -> l <> [] ->
  exists a s, join ", " (map (dumps false) l) ++ t = String a s /\ value_head a = true.
Proof.
  destruct l as [|x [|y l]]; simpl forallb; intros P NE; [congruence| |];
    apply andb_true_iff in P; destruct P as [Px _];
    destruct (dumps_head x Px) as [a [s [E D]]].
  - simpl join. rewrite E. now exists a, (s ++ t).
  - change (join ", " (map (dumps false) (x :: y :: l)))
      with (dumps false x ++ ", " ++ join ", " (map (dumps false) (y :: l))).
    rewrite E. eexists a, _. split; [reflexivity | exact D].
Qed.

Lemma dumps_dict d :
  dumps false (VDict d) = "{" ++ join ", " (map member d) ++ "}".
Proof. reflexivity. Qed.

(** Every plain value is read back from its serialization, whatever
    follows it (a number must not be followed by a character that would
    continue it). *)
Lemma scan_once_dumps v : plain v = true -> reads_back v.
Proof.
  induction v as [ |b|z|x|s|l IH|d IH] using value_nested_ind; intros P f doc rest Hf E.
  - destruct f as [|f]; [inversion Hf|]. reflexivity.
  - destruct f as [|f]; [inversion Hf|]. destruct b; reflexivity.
  - destruct f as [|f]; [inversion Hf|]. now apply scan_once_int.
  - discriminate P.
  - destruct f as [|f]; [inversion Hf|]. apply scan_once_string.
  - simpl in P. simpl in Hf. destruct f as [|f]; [lia|].
    destruct l as [|x l]; [reflexivity|].
    assert (R : Forall reads_back (x :: l)).
    { clear Hf. induction IH as [|y l' Hy _ IHl]; constructor.
      - simpl in P. apply andb_true_iff in P. now apply Hy.
      - simpl in P. apply andb_true_iff in P. now apply IHl. }
    change (dumps false (VList (x :: l)))
      with ("[" ++ join ", " (map (dumps false) (x :: l)) ++ "]").
    change ("[" ++ ?t) with (String "[" t).
    change (String "[" ?t ++ rest) with (String "[" (t ++ rest)).
    rewrite append_assoc. change ("]" ++ rest) with (String "]" rest).
    rewrite scan_once_bracket.
    destruct (items_head (x :: l) (String "]" rest) P) as [a [s [Hs D]]]; [discriminate|].
    rewrite Hs. apply value_head_facts in D. destruct D as [W [B _]].
    rewrite (skip_ws_head a s W), B. rewrite <- Hs.
    rewrite (array_loop_items (x :: l) R P) by (try discriminate; unfold items_fuel; lia).
    reflexivity.
  - simpl in P. apply andb_true_iff in P. destruct P as [K P].
    simpl in Hf. destruct f as [|f]; [lia|].
    destruct d as [|kv d]; [reflexivity|].
    assert (R : Forall (fun kv => reads_back (snd kv)) (kv :: d)).
    { clear Hf K. induction IH as [|y l' Hy _ IHl]; constructor.
      - simpl in P. apply andb_true_iff in P. now apply Hy.
      - simpl in P. apply andb_true_iff in P. now apply IHl. }
    rewrite dumps_dict.
    change ("{" ++ ?t) with (String "{" t).
    change (String "{" ?t ++ rest) with (String "{" (t ++ rest)).
    rewrite append_assoc. change ("}" ++ rest) with (String "}" rest).
    rewrite scan_once_brace.
    destruct (members_head (kv :: d) (String "}" rest)) as [s Hs]; [discriminate|].
    rewrite Hs. rewrite skip_ws_head by reflexivity.
    change (Ascii.eqb (byte 34) "}") with false.
    change (Ascii.eqb (byte 34) (byte 34)) with true. cbv iota.
    rewrite <- Hs.
    rewrite (object_loop_members (kv :: d) R P)
      by (try discriminate; unfold members_fuel; lia).
    simpl app. now rewrite (dict_of_pairs_distinct _ K).
Qed.

(** *** Fuel *)

Lemma join_fuel {A} (text : A -> string) (cost : A -> nat) (l : list A) :
  Forall (fun x => cost x <= String.length (text x)) l ->
  fold_right (fun x n => S (cost x + n)) 0 l
  <= S (String.length (join ", " (map text l))).
Proof.
  induction l as [|x l IH]; intros H; [simpl; lia|].
  inversion H as [|? ? Hx Hl]; subst. specialize (IH Hl).
  destruct l as [|y l].
  - simpl. lia.
  - change (join ", " (map text (x :: y :: l)))
      with (text x ++ ", " ++ join ", " (map text (y :: l))).
    rewrite !length_append. change (String.length ", ") with 2.
    change (fold_right (fun x n => S (cost x + n)) 0 (x :: y :: l))
      with (S (cost x + fold_right (fun x n => S (cost x + n)) 0 (y :: l))).
    lia.
Qed.

Lemma size_le_length v : plain v = true -> size v <= String.length (dumps false v).
Proof.
  induction v as [ |b|z|x|s|l IH|d IH] using value_nested_ind; intros P.
  - simpl; lia.
  - destruct b; simpl; lia.
  - simpl. destruct (str_of_Z_head z) as [a [s [E _]]]. rewrite E. simpl. lia.
  - discriminate P.
  - simpl. rewrite length_append. lia.
  - simpl in P.
    assert (H : Forall (fun x => size x <= String.length (dumps false x)) l).
    { induction IH as [|y l' Hy _ IHl]; constructor;
        simpl in P; apply andb_true_iff in P; [now apply Hy | now apply IHl]. }
    apply (join_fuel (dumps false) size) in H.
    change (dumps false (VList l)) with ("[" ++ join ", " (map (dumps false) l) ++ "]").
    change ("[" ++ ?t) with (String "[" t). simpl String.length.
    rewrite length_append. simpl size. simpl String.length. lia.
  - simpl in P. apply andb_true_iff in P. destruct P as [_ P].
    assert (H : Forall (fun kv => size (snd kv) <= String.length (member kv)) d).
    { induction IH as [|y l' Hy _ IHl]; constructor;
        simpl in P; apply andb_true_iff in P.
      - unfold member. rewrite !length_append. destruct P as [Py _].
        specialize (Hy Py). lia.
      - now apply IHl. }
    apply (join_fuel member (fun kv => size (snd kv))) in H.
    rewrite dumps_dict.
    change ("{" ++ ?t) with (String "{" t). simpl String.length.
    rewrite length_append. simpl size. simpl String.length. lia.
Qed.

Lemma append_nil_r (s : string) : s ++ EmptyString = s.
Proof. induction s as [|a s IH]; simpl; [reflexivity | now rewrite IH]. Qed.

(** [json.loads(json.dumps(v, ensure_ascii=False)) == v] for every value
    without floats and without repeated keys. *)
Lemma loads_dumps v : plain v = true -> loads (dumps false v) = Return v.
Proof.
  intros P. unfold loads.
  destruct (dumps_head v P) as [a [s [E D]]].
  pose proof (value_head_facts a D) as [W [_ [_ B]]].
  assert (N : strip_prefix bom (dumps false v) = None).
  { rewrite E.
    change (strip_prefix bom (String a s))
      with (if Ascii.eqb (byte 239) a
            then strip_prefix (String (byte 187) (String (byte 191) EmptyString)) s
            else None).
    now rewrite B. }
  rewrite N.
  assert (K : skip_ws (dumps false v) = dumps false v).
  { rewrite E. now apply skip_ws_head. }
  rewrite K.
  pose proof (scan_once_dumps v P (2 * String.length (dumps false v) + 2)
                (dumps false v) EmptyString) as R.
  rewrite append_nil_r in R. rewrite R; [reflexivity| |reflexivity].
  pose proof (size_le_length v P). lia.
Qed.

End RoundTrip.

(** *** The decoder terminates within its fuel *)

Section Fuel.
Import Json.

Lemma skip_ws_length s : String.length (skip_ws s) <= String.length s.
Proof.
  induction s as [|a s IH]; simpl; [lia|].
  destruct (is_ws a); simpl; lia.
Qed.

Lemma strip_prefix_length p : forall s r,
  strip_prefix p s = Some r -> String.length r <= String.length s.
Proof.
  induction p as [|a p IH]; intros s r H; simpl in H.
  - injection H as ->. lia.
  - destruct s as [|b s]; [discriminate|].
    destruct (Ascii.eqb a b); [|discriminate].
    apply IH in H. simpl. lia.
Qed.

Lemma span_digits_length s : forall ds r,
  span_digits s = (ds, r) -> String.length r <= String.length s.
Proof.
  induction s as [|a s IH]; intros ds r H; simpl in H.
  - injection H as _ <-. simpl; lia.
  - destruct (is_digit a).
    + destruct (span_digits s) as [ds' r'] eqn:E. injection H as _ <-.
      specialize (IH ds' r' eq_refl). simpl. lia.
    + injection H as _ <-. lia.
Qed.

Lemma match_digits_length s ds r :
  match_digits s = Some (ds, r) -> String.length r <= String.length s.
Proof.
  unfold match_digits. destruct s as [|a s]; [discriminate|].
  destruct (Ascii.eqb a "0").
  - intros [= _ <-]. simpl; lia.
  - destruct (is_digit a); [|discriminate].
    pose proof (span_digits_length (String a s)) as L.
    destruct (span_digits (String a s)) as [ds' r'].
    intros [= _ <-]. now apply (L ds').
Qed.

Lemma match_integer_length s ds r :
  match_integer s = Some (ds, r) -> String.length r <= String.length s.
Proof.
  unfold match_integer. destruct s as [|a s]; [discriminate|].
  destruct (Ascii.eqb a "-").
  - destruct (match_digits s) as [[ds' r']|] eqn:E; [|discriminate].
    intros [= _ <-]. apply match_digits_length in E. simpl. lia.
  - apply match_digits_length.
Qed.

Lemma match_frac_length s ds r :
  match_frac s = (ds, r) -> String.length r <= String.length s.
Proof.
  unfold match_frac. destruct s as [|a s]; [intros [= _ <-]; lia|].
  destruct (Ascii.eqb a "."); [|intros [= _ <-]; lia].
  destruct (span_digits s) as [[|d ds'] r'] eqn:E; intros [= _ <-]; [lia|].
  apply span_digits_length in E. simpl. lia.
Qed.

Lemma match_exp_length s ds r :
  match_exp s = (ds, r) -> String.length r <= String.length s.
Proof.
  unfold match_exp. destruct s as [|e s]; [intros [= _ <-]; lia|].
  destruct (Ascii.eqb e "e" || Ascii.eqb e "E"); [|intros [= _ <-]; lia].
  assert (L : String.length
                (snd match s with
                     | String a s' =>
                         if Ascii.eqb a "-" || Ascii.eqb a "+"
                         then (String a EmptyString, s') else (EmptyString, s)
                     | EmptyString => (EmptyString, s)
                     end) <= String.length s).
  { destruct s as [|a s']; simpl; [lia|].
    destruct (Ascii.eqb a "-" || Ascii.eqb a "+"); simpl; lia. }
  destruct (match s with
            | String a s' =>
                if Ascii.eqb a "-" || Ascii.eqb a "+" then (String a EmptyString, s') else (EmptyString, s)
            | EmptyString => (EmptyString, s)
            end) as [sign s2]. simpl in L.
  destruct (span_digits s2) as [[|d ds'] r'] eqn:E; intros [= _ <-]; [lia|].
  apply span_digits_length in E. simpl. lia.
Qed.

Lemma match_number_length s v r :
  match_number s = Some (v, r) -> String.length r <= String.length s.
Proof.
  unfold match_number.
  destruct (match_integer s) as [[integer s1]|] eqn:I; [|discriminate].
  destruct (match_frac s1) as [frac s2] eqn:F.
  destruct (match_exp s2) as [exp s3] eqn:X.
  apply match_integer_length in I. apply match_frac_length in F.
  apply match_exp_length in X.
  destruct frac; destruct exp; intros [= _ <-]; lia.
Qed.

Lemma decode_uXXXX_length s n r :
  decode_uXXXX s = Some (n, r) -> String.length s = 4 + String.length r.
Proof.
  unfold decode_uXXXX.
  destruct s as [|a [|b [|c [|d [|e rest]]]]]; try discriminate.
  destruct (hex_val a), (hex_val b), (hex_val c), (hex_val d); try discriminate.
  intros [= _ <-]. reflexivity.
Qed.

Lemma scan_escape_bounded doc begin s :
  bounded_string (String.length s) (scan_escape doc begin s).
Proof.
  unfold scan_escape. destruct s as [|a s1]; [exact I|].
  destruct (Ascii.eqb a "u").
  - destruct (decode_uXXXX s1) as [[uni s2]|] eqn:D; [|exact I].
    apply decode_uXXXX_length in D.
    assert (S1 : bounded_string (String.length (String a s1)) (Return (chr uni, s2)))
      by (simpl; lia).
    destruct ((55296 <=? uni) && (uni <=? 56319))%N; [|exact S1].
    destruct s2 as [|x [|y s3]]; try exact S1.
    destruct (Ascii.eqb x "\" && Ascii.eqb y "u"); [|exact S1].
    destruct (decode_uXXXX s3) as [[uni2 s4]|] eqn:D2; [|exact I].
    apply decode_uXXXX_length in D2.
    destruct ((56320 <=? uni2) && (uni2 <=? 57343))%N; [|exact S1].
    simpl in *. lia.
  - destruct (backslash a); [simpl; lia | exact I].
Qed.

Lemma scanstring_bounded f : forall doc begin s,
  String.length s < f -> bounded_string (S (String.length s)) (scanstring f doc begin s).
Proof.
  induction f as [|f IH]; intros doc begin s Hf; [lia|].
  destruct s as [|a s1]; [exact I|]. simpl scanstring. simpl in Hf.
  destruct (Ascii.eqb a (byte 34)); [simpl; lia|].
  destruct (Ascii.eqb a "\").
  - pose proof (scan_escape_bounded doc begin s1) as E.
    destruct (scan_escape doc begin s1) as [[c s2]|[m d p|m]]; simpl in E;
      [|exact I|destruct E].
    assert (H : String.length s2 < f) by lia.
    specialize (IH doc begin s2 H).
    destruct (scanstring f doc begin s2) as [[content rest]|[m d p|m]]; simpl in *;
      [lia | exact I | exact IH].
  - destruct (nat_of_ascii a <? 32)%nat; [exact I|].
    assert (H : String.length s1 < f) by lia.
    specialize (IH doc begin s1 H).
    destruct (scanstring f doc begin s1) as [[content rest]|[m d p|m]]; simpl in *;
      [lia | exact I | exact IH].
Qed.

Lemma bounded_le n m o : n <= m -> bounded n o -> bounded m o.
Proof.
  destruct o as [[v rest]|[msg doc pos|msg]]; simpl; intros; [lia | exact I | assumption].
Qed.

Lemma scan_once_eq f doc a s1 :
  scan_once (S f) doc (String a s1)
  = if Ascii.eqb a (byte 34) then
      match scanstring (S (String.length s1)) doc (String a s1) s1 with
      | Raise e => Raise e
      | Return (str, rest) => Return (VStr str, rest)
      end
    else if Ascii.eqb a "{" then
      match skip_ws s1 with
      | String q rest =>
          if Ascii.eqb q "}" then Return (VDict [], rest)
          else if Ascii.eqb q (byte 34) then object_loop f doc (skip_ws s1) []
          else decode_error "Expecting property name enclosed in double quotes"
                 doc (skip_ws s1)
      | EmptyString =>
          decode_error "Expecting property name enclosed in double quotes" doc (skip_ws s1)
      end
    else if Ascii.eqb a "[" then
      match skip_ws s1 with
      | String q rest =>
          if Ascii.eqb q "]" then Return (VList [], rest)
          else array_loop f doc (skip_ws s1) []
      | EmptyString => array_loop f doc (skip_ws s1) []
      end
    else
      match strip_prefix "null" (String a s1), strip_prefix "true" (String a s1),
            strip_prefix "false" (String a s1) with
      | Some rest, _, _ => Return (VNone, rest)
      | _, Some rest, _ => Return (VBool true, rest)
      | _, _, Some rest => Return (VBool false, rest)
      | _, _, _ =>
          match match_number (String a s1) with
          | Some r => Return r
          | None =>
              match strip_prefix "NaN" (String a s1),
                    strip_prefix "Infinity" (String a s1),
                    strip_prefix "-Infinity" (String a s1) with
              | Some rest, _, _ => Return (VFloat "NaN", rest)
              | _, Some rest, _ => Return (VFloat "Infinity", rest)
              | _, _, Some rest => Return (VFloat "-Infinity", rest)
              | _, _, _ => decode_error "Expecting value" doc (String a s1)
              end
          end
      end.
Proof. reflexivity. Qed.

(** The atoms: literals and numbers. *)
Lemma scan_atom_bounded doc s :
  bounded (String.length s)
    match strip_prefix "null" s, strip_prefix "true" s, strip_prefix "false" s with
    | Some rest, _, _ => Return (VNone, rest)
    | _, Some rest, _ => Return (VBool true, rest)
    | _, _, Some rest => Return (VBool false, rest)
    | _, _, _ =>
        match match_number s with
        | Some r => Return r
        | None =>
            match strip_prefix "NaN" s, strip_prefix "Infinity" s,
                  strip_prefix "-Infinity" s with
            | Some rest, _, _ => Return (VFloat "NaN", rest)
            | _, Some rest, _ => Return (VFloat "Infinity", rest)
            | _, _, Some rest => Return (VFloat "-Infinity", rest)
            | _, _, _ => decode_error "Expecting value" doc s
            end
        end
    end.
Proof.
  pose proof (strip_prefix_length "null" s) as H1.
  pose proof (strip_prefix_length "true" s) as H2.
  pose proof (strip_prefix_length "false" s) as H3.
  pose proof (strip_prefix_length "NaN" s) as H4.
  pose proof (strip_prefix_length "Infinity" s) as H5.
  pose proof (strip_prefix_length "-Infinity" s) as H6.
  pose proof (match_number_length s) as H7.
  destruct (strip_prefix "null" s); [now apply H1|].
  destruct (strip_prefix "true" s); [now apply H2|].
  destruct (strip_prefix "false" s); [now apply H3|].
  destruct (match_number s) as [[v r]|]; [now apply (H7 v)|].
  destruct (strip_prefix "NaN" s); [now apply H4|].
  destruct (strip_prefix "Infinity" s); [now apply H5|].
  destruct (strip_prefix "-Infinity" s); [now apply H6|].
  exact I.
Qed.

Lemma within_fuel_all f : within_fuel f.
Proof.
  induction f as [|f [IHs [IHo IHa]]].
  - repeat split; intros; lia.
  - split; [|split].
    + intros doc [|a s1] Hf; [exact I|]. simpl in Hf.
      rewrite scan_once_eq.
      destruct (Ascii.eqb a (byte 34)).
      { pose proof (scanstring_bounded (S (String.length s1)) doc (String a s1) s1
                      (Nat.lt_succ_diag_r _)) as B.
        destruct (scanstring _ doc (String a s1) s1) as [[str rest]|[m d p|m]];
          simpl in *; [lia | exact I | exact B]. }
      pose proof (skip_ws_length s1) as W.
      destruct (Ascii.eqb a "{").
      { destruct (skip_ws s1) as [|q rest] eqn:E; [exact I|].
        destruct (Ascii.eqb q "}"); [simpl in *; lia|].
        destruct (Ascii.eqb q (byte 34)); [|exact I].
        apply (bounded_le (String.length (String q rest))); [simpl in *; lia|].
        apply IHo. simpl in *. lia. }
      destruct (Ascii.eqb a "[").
      { destruct (skip_ws s1) as [|q rest] eqn:E.
        - apply (bounded_le (String.length EmptyString)); [simpl; lia|].
          apply IHa. simpl. lia.
        - destruct (Ascii.eqb q "]"); [simpl in *; lia|].
          apply (bounded_le (String.length (String q rest))); [simpl in *; lia|].
          apply IHa. simpl in *. lia. }
      apply scan_atom_bounded.
    + intros doc [|q s1] pairs Hf; [exact I|]. simpl in Hf.
      rewrite object_loop_eq.
      pose proof (scanstring_bounded (S (String.length s1)) doc (String q s1) s1
                    (Nat.lt_succ_diag_r _)) as B.
      destruct (scanstring _ doc (String q s1) s1) as [[key s2]|[m d p|m]];
        simpl in B; [|exact I|exact B].
      pose proof (skip_ws_length s2) as W2.
      destruct (skip_ws s2) as [|colon s4]; [exact I|].
      destruct (Ascii.eqb colon ":"); [|exact I].
      pose proof (skip_ws_length s4) as W4.
      assert (B5 : bounded (String.length (skip_ws s4)) (scan_once f doc (skip_ws s4)))
        by (apply IHs; simpl in *; lia).
      destruct (scan_once f doc (skip_ws s4)) as [[v s5]|[m d p|m]];
        simpl in B5; [|exact I|exact B5].
      pose proof (skip_ws_length s5) as W5.
      destruct (skip_ws s5) as [|delim s7]; [exact I|].
      destruct (Ascii.eqb delim "}"); [simpl in *; lia|].
      destruct (Ascii.eqb delim ","); [|exact I].
      pose proof (skip_ws_length s7) as W7.
      destruct (skip_ws s7) as [|q' s9] eqn:E7; [exact I|].
      destruct (Ascii.eqb q' (byte 34)); [|exact I].
      apply (bounded_le (String.length (String q' s9))); [simpl in *; lia|].
      apply IHo. simpl in *. lia.
    + intros doc s values Hf.
      rewrite array_loop_eq.
      assert (B1 : bounded (String.length s) (scan_once f doc s)) by (apply IHs; lia).
      destruct (scan_once f doc s) as [[v s1]|[m d p|m]];
        simpl in B1; [|exact I|exact B1].
      pose proof (skip_ws_length s1) as W1.
      destruct (skip_ws s1) as [|delim s3]; [exact I|].
      destruct (Ascii.eqb delim "]"); [simpl in *; lia|].
      destruct (Ascii.eqb delim ","); [|exact I].
      pose proof (skip_ws_length s3) as W3.
      apply (bounded_le (String.length (skip_ws s3))); [simpl in *; lia|].
      apply IHa. simpl in *. lia.
Qed.

(** The model [loads] always ends with a value or a [JSONDecodeError]:
    the fuel it starts with is enough for every document.  (This is a fact
    about the model's fuel, not about the limits of the interpreter, which
    the model leaves out.) *)
Lemma loads_total s :
  match loads s with
  | Return _ => True
  | Raise (JSONDecodeError _ _ _) => True
  | Raise (Exception _) => False
  end.
Proof.
  unfold loads. destruct (strip_prefix bom s); [exact I|].
  destruct (within_fuel_all (2 * String.length s + 2)) as [Hs _].
  pose proof (skip_ws_length s) as W.
  specialize (Hs s (skip_ws s)).
  destruct (scan_once (2 * String.length s + 2) s (skip_ws s)) as [[obj rest]|[m d p|m]].
  - destruct (skip_ws rest); exact I.
  - exact I.
  - apply Hs. lia.
Qed.

End Fuel.

(** *** Prose around the braces *)

Lemma find_from_absent c p : forall i,
  (0 <= i)%Z -> find_from c p i = (-1)%Z ->
  forall t j, find_from c (p ++ t) j = find_from c t (j + len p)%Z.
Proof.
  induction p as [|a p IH]; intros i Hi H t j.
  - unfold len. simpl. now rewrite Z.add_0_r.
  - simpl in H. simpl append. simpl find_from.
    destruct (Ascii.eqb a c); [lia|].
    rewrite (IH (i + 1)%Z) by (trivial; lia).
    f_equal. unfold len. simpl String.length. lia.
Qed.

Lemma rfind_from_append c x : forall t i last,
  rfind_from c (x ++ t) i last
  = rfind_from c t (i + len x)%Z (rfind_from c x i last).
Proof.
  induction x as [|a x IH]; intros t i last.
  - unfold len. simpl. now rewrite Z.add_0_r.
  - simpl append. simpl rfind_from. rewrite IH.
    f_equal. unfold len. simpl String.length. lia.
Qed.

Lemma rfind_from_absent c s : forall i,
  (0 <= i)%Z -> rfind_from c s i (-1) = (-1)%Z ->
  forall j last, rfind_from c s j last = last.
Proof.
  induction s as [|a s IH]; intros i Hi H j last; [reflexivity|].
  simpl in H. simpl.
  destruct (Ascii.eqb a c).
  - exfalso. destruct (rfind_from_spec c s (i + 1) i) as [E|[n [E _]]]; lia.
  - apply (IH (i + 1)%Z); [lia | exact H].
Qed.

Lemma find_prose prefix c t :
  find prefix c = (-1)%Z -> find (prefix ++ String c t) c = len prefix.
Proof.
  intros H. unfold find in *.
  rewrite (find_from_absent c prefix 0) by (trivial; lia).
  simpl. now rewrite Ascii.eqb_refl.
Qed.

Lemma rfind_prose x c suffix :
  rfind suffix c = (-1)%Z -> rfind (x ++ String c suffix) c = len x.
Proof.
  intros H. unfold rfind in *. rewrite rfind_from_append.
  simpl. rewrite Ascii.eqb_refl.
  apply (rfind_from_absent c suffix 0); [lia | exact H].
Qed.

Lemma substring_prefix b : forall s, substring 0 (String.length b) (b ++ s) = b.
Proof.
  induction b as [|a b IH]; intros s; simpl.
  - apply substring_none.
  - now rewrite IH.
Qed.

Lemma substring_middle p b s :
  substring (String.length p) (String.length b) (p ++ b ++ s) = b.
Proof.
  induction p as [|a p IH]; simpl; [apply substring_prefix | exact IH].
Qed.

(** The text between the first opening and the last closing brace of an
    object wrapped in prose is the object. *)
Lemma json_str_prose prefix inner suffix :
  find prefix "{" = (-1)%Z -> rfind suffix "}" = (-1)%Z ->
  let body := String "{" (inner ++ "}") in
  has_braces (prefix ++ body ++ suffix) = true
  /\ json_str (prefix ++ body ++ suffix) = body.
Proof.
  intros F L body. set (raw := prefix ++ body ++ suffix).
  assert (Hf : find raw "{" = len prefix).
  { unfold raw, body. simpl append. now apply find_prose. }
  assert (Hl : rfind raw "}" = (len prefix + len inner + 1)%Z).
  { unfold raw, body.
    replace (prefix ++ String "{" (inner ++ "}") ++ suffix)
      with ((prefix ++ String "{" inner) ++ String "}" suffix).
    - rewrite (rfind_prose _ "}" suffix L). unfold len.
      rewrite length_append. simpl String.length. lia.
    - rewrite !append_assoc. simpl. now rewrite append_assoc. }
  assert (Hlen : len raw = (len prefix + len inner + 2 + len suffix)%Z).
  { unfold raw, body, len. rewrite length_append. simpl String.length.
    rewrite !length_append. simpl String.length. lia. }
  split.
  - unfold has_braces. fold raw. rewrite Hf, Hl.
    unfold len. apply andb_true_iff. split; apply negb_true_iff, Z.eqb_neq; lia.
  - unfold json_str. fold raw. rewrite Hf, Hl.
    rewrite slice_within by (unfold len in *; lia).
    replace (Z.to_nat (len prefix)) with (String.length prefix) by (unfold len; lia).
    replace (Z.to_nat (len prefix + len inner + 1 + 1 - len prefix))
      with (String.length body)
      by (unfold body, len; simpl String.length; rewrite length_append;
          simpl String.length; lia).
    apply substring_middle.
Qed.

(** X17: a valid object wrapped in prose that holds no brace of its own is
    recovered as it is, whatever braces the object holds inside. *)
Lemma prose_is_ignored (json_loads : string -> outcome value)
    prefix inner suffix rs v msg doc pos :
  find prefix "{" = (-1)%Z -> rfind suffix "}" = (-1)%Z ->
  json_loads (prefix ++ String "{" (inner ++ "}") ++ suffix)
  = Raise (JSONDecodeError msg doc pos) ->
  json_loads (String "{" (inner ++ "}")) = Return v ->
  fails_validation v = false ->
  result (normalizer json_loads (prefix ++ String "{" (inner ++ "}") ++ suffix) rs)
  = Return v.
Proof.
  intros F L E B V.
  rewrite (normalizer_decode_error json_loads _ rs msg doc pos E).
  destruct (json_str_prose prefix inner suffix F L) as [H J].
  rewrite H, J, B. now rewrite V.
Qed.

(** *** The fallback survives serialization *)

Lemma fallback_entries_plain rs : forall i,
  forallb Json.plain
    (map (fun ir => fallback_entry (fst ir) (snd ir)) (enumerate_from i rs)) = true.
Proof.
  induction rs as [|r rs IH]; intros i; simpl; [reflexivity | apply IH].
Qed.

Lemma fallback_plain rs : Json.plain (fallback_rankings rs) = true.
Proof.
  unfold fallback_rankings, enumerate.
  change (Json.plain (VDict [("rankings", VList ?l)]))
    with (Json.distinct ["rankings"] && (forallb Json.plain l && true)).
  now rewrite fallback_entries_plain.
Qed.

Lemma loads_dumps_fallback rs :
  Json.loads (Json.dumps false (fallback_rankings rs)) = Return (fallback_rankings rs).
Proof. apply loads_dumps, fallback_plain. Qed.

(** X19: with the decoder and the encoder above the normalizer maps the
    serialized fallback of any resume list, whatever bytes the names hold,
    to that fallback, without a notice. *)
Lemma normalizer_fallback_again rs :
  normalizer Json.loads (Json.dumps false (fallback_rankings rs)) rs
  = ([], Return (fallback_rankings rs)).
Proof.
  now rewrite (normalizer_parsed Json.loads _ rs _ (loads_dumps_fallback rs)).
Qed.

(** The ranks of the fallback for three resumes. *)
Example fallback_ABC :
  fallback_rankings [resume_A; resume_B; resume_C]
  = VDict [("rankings",
            VList [unanalyzed 0 "A.pdf"; unanalyzed 1 "B.pdf"; unanalyzed 2 "C.pdf"])]
  /\ map (fun e => match e with VDict d => dict_get "rank" d | _ => None end)
         [unanalyzed 0 "A.pdf"; unanalyzed 1 "B.pdf"; unanalyzed 2 "C.pdf"]
     = [Some (VInt 1); Some (VInt 2); Some (VInt 3)].
Proof. split; reflexivity. Qed.

(** *** The claims *)

(** C1, as stated, fails: a response that is a well-formed object with an
    empty [rankings] list is returned as it is, so one input resume gives a
    result with no entry at all. *)
Lemma cardinality_counterexample :
  exists v l,
    result (normalizer Json.loads (dquoted "{'rankings': []}") [resume_A]) = Return v
    /\ rankings_of v = Some l
    /\ List.length l = 0
    /\ List.length l <> List.length [resume_A].
Proof.
  exists (VDict [("rankings", VList [])]), [].
  repeat split; try reflexivity. simpl. discriminate.
Qed.

(** C1, amended: for every response and every resume list of size N the
    normalizer returns a value; when fallback synthesis is triggered the
    value is the fallback and its [rankings] has exactly N entries;
    otherwise it is the recovered structure itself, with the entries the
    response gave. *)
Theorem cardinality_when_synthesized
    (json_loads : string -> outcome value) (raw : string) (rs : list resume) :
  exists v,
    result (normalizer json_loads raw rs) = Return v
    /\ if fallback_triggered json_loads raw then
         v = fallback_rankings rs
         /\ exists l, rankings_of v = Some l /\ List.length l = List.length rs
       else recovered json_loads raw = Some v.
Proof.
  rewrite normalizer_result. unfold fallback_triggered.
  destruct (recovered json_loads raw) as [v|].
  - destruct (fails_validation v).
    + eexists; split; [reflexivity|]. split; [reflexivity|].
      eexists; split; [apply fallback_rankings_of|].
      rewrite length_map. apply enumerate_from_length.
    + now exists v.
  - eexists; split; [reflexivity|]. split; [reflexivity|].
    eexists; split; [apply fallback_rankings_of|].
    rewrite length_map. apply enumerate_from_length.
Qed.

(** C2: whatever the response and the resume list, the normalizer does not
    raise: it returns a dict that has the key [rankings]. *)
Theorem normalizer_never_raises
    (json_loads : string -> outcome value) (raw : string) (rs : list resume) :
  exists log d,
    normalizer json_loads raw rs = (log, Return (VDict d))
    /\ dict_has "rankings" d = true.
Proof.
  destruct (normalizer_returns json_loads raw rs) as [log [v E]].
  pose proof (normalizer_result json_loads raw rs) as H.
  rewrite E in H. simpl in H. injection H as H.
  assert (P : fails_validation v = false).
  { subst v. destruct (recovered json_loads raw) as [w|]; [|reflexivity].
    destruct (fails_validation w) eqn:F; [reflexivity | exact F]. }
  apply passes_validation in P. destruct P as [d [-> Hd]].
  now exists log, d.
Qed.

(** C3: whenever fallback synthesis is triggered, the result is the
    fallback: its [rankings] has one entry per input resume, in input
    order, and the entry at index k has [match_percentage] 0, [rank] k+1,
    the two fixed one-element lists and the name of the k-th resume. *)
Theorem fallback_synthesis
    (json_loads : string -> outcome value) (raw : string) (rs : list resume) :
  fallback_triggered json_loads raw = true ->
  exists l,
    result (normalizer json_loads raw rs) = Return (VDict [("rankings", VList l)])
    /\ List.length l = List.length rs
    /\ forall k r, nth_error rs k = Some r ->
         nth_error l k
         = Some (VDict [ ("resume_name", VStr (name r));
                         ("match_percentage", VInt 0);
                         ("rank", VInt (Z.of_nat k + 1));
                         ("strengths", VList [VStr "Unable to analyze strengths"]);
                         ("gaps", VList [VStr "Unable to analyze gaps"]) ]).
Proof.
  intros T.
  exists (map (fun ir => fallback_entry (fst ir) (snd ir)) (enumerate rs)).
  split; [|split].
  - rewrite normalizer_result. unfold fallback_triggered in T.
    destruct (recovered json_loads raw) as [v|]; [rewrite T|]; reflexivity.
  - rewrite length_map. apply enumerate_from_length.
  - intros k r H. apply (fallback_nth rs _ k r); [reflexivity | exact H].
Qed.

(** Prose without braces and three resumes: ranks 1, 2, 3 in input order. *)
Lemma fallback_synthesis_witness :
  fallback_triggered Json.loads "I could not rank these resumes." = true
  /\ exists l,
       result (normalizer Json.loads "I could not rank these resumes."
                 [resume_A; resume_B; resume_C])
       = Return (VDict [("rankings", VList l)])
       /\ List.length l = 3
       /\ forall k r, nth_error [resume_A; resume_B; resume_C] k = Some r ->
            nth_error l k
            = Some (VDict [ ("resume_name", VStr (name r));
                            ("match_percentage", VInt 0);
                            ("rank", VInt (Z.of_nat k + 1));
                            ("strengths", VList [VStr "Unable to analyze strengths"]);
                            ("gaps", VList [VStr "Unable to analyze gaps"]) ]).
Proof.
  split; [vm_compute; reflexivity|].
  apply (fallback_synthesis Json.loads "I could not rank these resumes."
           [resume_A; resume_B; resume_C]).
  vm_compute; reflexivity.
Defined.

(** C7, as stated, fails, in two ways.  The first response is prose
    around an object whose [rankings] is a number: the direct parse fails
    and the text between the braces parses, but it does not pass the
    Validation of the specification, so extraction should not succeed; the
    code returns the object.  The second response parses, as a list that
    fails validation; the text between its braces is a valid ranking
    object, which the code never looks at. *)
Lemma substring_extraction_counterexample :
  let raw := dquoted "Result: {'rankings': 5} done" in
  let raw' := dquoted "[0, {'rankings': []}]" in
  Json.loads raw = Raise (JSONDecodeError "Expecting value" raw 0)
  /\ Json.loads (dquoted "{'rankings': 5}") = Return (VDict [("rankings", VInt 5)])
  /\ spec_valid (VDict [("rankings", VInt 5)]) = false
  /\ spec_substring_extraction Json.loads raw = None
  /\ spec_normalizer Json.loads raw [resume_A] = fallback_rankings [resume_A]
  /\ normalizer Json.loads raw [resume_A] = ([], Return (VDict [("rankings", VInt 5)]))
  /\ result (normalizer Json.loads raw [resume_A])
     <> Return (spec_normalizer Json.loads raw [resume_A])
  /\ Json.loads raw' = Return (VList [VInt 0; VDict [("rankings", VList [])]])
  /\ spec_direct_parse Json.loads raw' = None
  /\ spec_substring_extraction Json.loads raw' = Some (VDict [("rankings", VList [])])
  /\ normalizer Json.loads raw' [resume_A] = ([], Return (fallback_rankings [resume_A]))
  /\ result (normalizer Json.loads raw' [resume_A])
     <> Return (spec_normalizer Json.loads raw' [resume_A]).
Proof.
  repeat split; try (vm_compute; reflexivity); vm_compute; discriminate.
Qed.

(** C7, amended: the braces are looked at when, and only when, the direct
    parse raises a decode error.  The normalizer then takes the first
    opening brace and the last closing brace of the response; if both exist
    and the first comes before the last, it parses the substring from the
    one to the other inclusive and returns what it gets when that parses
    and is a dict with the key [rankings]; in every other case after a
    decode error the result is the fallback.  A response that parses is
    validated as it is, and any other exception of the direct parse gives
    the fallback, whatever lies between the braces.  ([json.loads] rejects
    the empty string.) *)
Theorem substring_extraction
    (json_loads : string -> outcome value) (raw : string) (rs : list resume) :
  (exists e, json_loads EmptyString = Raise e) ->
  let first := find raw "{" in
  let last := rfind raw "}" in
  result (normalizer json_loads raw rs)
  = Return
      match json_loads raw with
      | Raise (JSONDecodeError _ _ _) =>
          if negb (first =? -1)%Z && negb (last =? -1)%Z && (first <? last)%Z then
            match json_loads
                    (substring (Z.to_nat first) (Z.to_nat (last - first + 1)) raw) with
            | Return v => if fails_validation v then fallback_rankings rs else v
            | Raise _ => fallback_rankings rs
            end
          else fallback_rankings rs
      | Return v => if fails_validation v then fallback_rankings rs else v
      | Raise (Exception _) => fallback_rankings rs
      end.
Proof.
  intros [e0 E0] first last.
  destruct (json_loads raw) as [v|[msg doc pos|msg]] eqn:E.
  - now rewrite (normalizer_parsed json_loads raw rs v E).
  - rewrite (normalizer_decode_error json_loads raw rs msg doc pos E).
    unfold has_braces, json_str. fold first last.
    destruct (find_spec raw "{") as [F|[i [F Gi]]]; fold first in F; rewrite F.
    { reflexivity. }
    destruct (rfind_spec raw "}") as [L|[j [L Gj]]]; fold last in L; rewrite L.
    { simpl. now rewrite andb_false_r. }
    assert (i <> j) by (intros ->; rewrite Gi in Gj; discriminate).
    apply get_Some_lt in Gi, Gj.
    replace (Z.of_nat i =? -1)%Z with false by (symmetry; apply Z.eqb_neq; lia).
    replace (Z.of_nat j + 1 =? 0)%Z with false by (symmetry; apply Z.eqb_neq; lia).
    replace (Z.of_nat j =? -1)%Z with false by (symmetry; apply Z.eqb_neq; lia).
    simpl. destruct (Z.ltb_spec (Z.of_nat i) (Z.of_nat j)) as [Lt|Ge].
    + rewrite slice_within by (unfold len; lia).
      now replace (Z.of_nat j + 1 - Z.of_nat i)%Z
        with (Z.of_nat j - Z.of_nat i + 1)%Z by lia.
    + rewrite slice_empty by lia. now rewrite E0.
  - now rewrite (normalizer_other_exception json_loads raw rs msg E).
Qed.

(** The example of the specification: the direct parse raises a decode
    error, and the object between the prose is what the normalizer
    returns. *)
Lemma substring_extraction_witness :
  Json.loads prose_response = Raise (JSONDecodeError "Expecting value" prose_response 0)
  /\ (exists e, Json.loads EmptyString = Raise e)
  /\ find prose_response "{" = 20%Z
  /\ rfind prose_response "}" = 136%Z
  /\ result (normalizer Json.loads prose_response [resume_A; resume_B])
     = Return embedded_rankings.
Proof.
  split; [vm_compute; reflexivity|].
  split; [eexists; vm_compute; reflexivity|].
  split; [vm_compute; reflexivity|].
  split; [vm_compute; reflexivity|].
  rewrite (substring_extraction Json.loads prose_response [resume_A; resume_B]).
  - vm_compute; reflexivity.
  - eexists; vm_compute; reflexivity.
Defined.

(** C4, as stated, fails: this response parses, as a list, so it does
    not pass validation; the text between its braces is a valid ranking
    object, which the chain of the specification would return in step 2.
    The code goes to the fallback without looking at it. *)
Lemma substring_step_counterexample :
  let raw := dquoted "[{'rankings': []}]" in
  Json.loads raw = Return (VList [VDict [("rankings", VList [])]])
  /\ spec_direct_parse Json.loads raw = None
  /\ spec_substring_extraction Json.loads raw = Some (VDict [("rankings", VList [])])
  /\ spec_normalizer Json.loads raw [resume_A] = VDict [("rankings", VList [])]
  /\ normalizer Json.loads raw [resume_A] = ([], Return (fallback_rankings [resume_A]))
  /\ result (normalizer Json.loads raw [resume_A])
     <> Return (spec_normalizer Json.loads raw [resume_A]).
Proof.
  repeat split; try (vm_compute; reflexivity).
  vm_compute. discriminate.
Qed.

(** C4, amended: substring extraction is attempted exactly when the direct
    parse raises a decode error.  A response that parses is validated at
    once: it is returned if it is a dict with the key [rankings] and
    replaced by the fallback otherwise, whatever lies between its braces.
    Any other exception of the direct parse leads to the fallback too. *)
Theorem chain_order
    (json_loads : string -> outcome value) (raw : string) (rs : list resume) :
  match json_loads raw with
  | Return v =>
      normalizer json_loads raw rs
      = ([], Return (if fails_validation v then fallback_rankings rs else v))
  | Raise (JSONDecodeError _ _ _) =>
      result (normalizer json_loads raw rs)
      = Return (if has_braces raw then
                  match json_loads (json_str raw) with
                  | Return v => if fails_validation v then fallback_rankings rs else v
                  | Raise _ => fallback_rankings rs
                  end
                else fallback_rankings rs)
  | Raise (Exception msg) =>
      normalizer json_loads raw rs
      = ([st_error ("Error analyzing resumes: " ++ msg)], Return (fallback_rankings rs))
  end.
Proof.
  destruct (json_loads raw) as [v|[msg doc pos|msg]] eqn:E.
  - now apply normalizer_parsed.
  - now apply (normalizer_decode_error json_loads raw rs msg doc pos).
  - now apply normalizer_other_exception.
Qed.

(** C5, as stated, fails: a dict whose [rankings] is the number 5 passes
    the check of line 192 and is what the normalizer returns. *)
Lemma validation_counterexample :
  let raw := dquoted "{'rankings': 5}" in
  Json.loads raw = Return (VDict [("rankings", VInt 5)])
  /\ spec_valid (VDict [("rankings", VInt 5)]) = false
  /\ fails_validation (VDict [("rankings", VInt 5)]) = false
  /\ normalizer Json.loads raw [resume_A] = ([], Return (VDict [("rankings", VInt 5)])).
Proof. repeat split; vm_compute; reflexivity. Qed.

(** C5, amended: the validation check accepts a parsed value if and only
    if it is a dict that has the key [rankings], whatever the value under
    that key; nothing else is checked, and a parsed value that is accepted
    is returned as parsed, malformed entries included. *)
Theorem validation_is_key_presence
    (json_loads : string -> outcome value) (raw : string) (rs : list resume) (v : value) :
  (fails_validation v = false
   <-> exists d x, v = VDict d /\ dict_get "rankings" d = Some x)
  /\ (json_loads raw = Return v -> fails_validation v = false ->
      normalizer json_loads raw rs = ([], Return v)).
Proof.
  split.
  - rewrite passes_validation. split.
    + intros [d [-> H]]. apply dict_has_get in H. destruct H as [x H]. now exists d, x.
    + intros [d [x [-> H]]]. exists d. split; [reflexivity|].
      apply dict_has_get. now exists x.
  - intros E V. rewrite (normalizer_parsed json_loads raw rs v E). now rewrite V.
Qed.

(** Entries of the wrong shape pass the check and come back unchanged. *)
Lemma validation_is_key_presence_witness :
  Json.loads malformed_response = Return malformed_rankings
  /\ fails_validation malformed_rankings = false
  /\ normalizer Json.loads malformed_response [resume_A] = ([], Return malformed_rankings).
Proof.
  destruct (validation_is_key_presence Json.loads malformed_response [resume_A]
              malformed_rankings) as [I P].
  split; [vm_compute; reflexivity|]. split.
  - apply I. eexists _, _. split; reflexivity.
  - apply P; vm_compute; reflexivity.
Defined.

(** C6: a response that parses directly as a record with a [rankings]
    sequence is returned as parsed, and nothing is reported. *)
Theorem well_formed_identity
    (json_loads : string -> outcome value) (raw : string) (rs : list resume)
    (d : list (string * value)) (l : list value) :
  json_loads raw = Return (VDict d) ->
  dict_get "rankings" d = Some (VList l) ->
  normalizer json_loads raw rs = ([], Return (VDict d)).
Proof.
  intros E G. rewrite (normalizer_parsed json_loads raw rs (VDict d) E).
  assert (P : fails_validation (VDict d) = false).
  { apply validation_key. now exists (VList l). }
  now rewrite P.
Qed.

(** A serialized ranking is returned as the structure it stands for. *)
Lemma well_formed_identity_witness :
  normalizer Json.loads (Json.dumps true embedded_rankings) [resume_A; resume_B; resume_C]
  = ([], Return embedded_rankings).
Proof.
  apply (well_formed_identity Json.loads (Json.dumps true embedded_rankings)
           [resume_A; resume_B; resume_C]
           [("rankings",
             VList [ VDict [ ("resume_name", VStr "A.pdf");
                             ("match_percentage", VInt 85);
                             ("rank", VInt 1);
                             ("strengths", VList [VStr "Python"]);
                             ("gaps", VList [VStr "SQL"]) ] ])]
           [ VDict [ ("resume_name", VStr "A.pdf");
                     ("match_percentage", VInt 85);
                     ("rank", VInt 1);
                     ("strengths", VList [VStr "Python"]);
                     ("gaps", VList [VStr "SQL"]) ] ]).
  - vm_compute; reflexivity.
  - vm_compute; reflexivity.
Defined.

(** C8: serialize the fallback the normalizer synthesized and run the
    normalizer on that text with the same resumes: provided parsing undoes
    the serialization, the result is that fallback again. *)
Theorem fallback_idempotent
    (json_loads : string -> outcome value) (json_dumps : value -> string)
    (raw : string) (rs : list resume) :
  fallback_triggered json_loads raw = true ->
  json_loads (json_dumps (fallback_rankings rs)) = Return (fallback_rankings rs) ->
  exists v,
    result (normalizer json_loads raw rs) = Return v
    /\ normalizer json_loads (json_dumps v) rs = ([], Return v).
Proof.
  intros T R. exists (fallback_rankings rs). split.
  - rewrite normalizer_result. unfold fallback_triggered in T.
    destruct (recovered json_loads raw) as [v|]; [rewrite T|]; reflexivity.
  - now rewrite (normalizer_parsed json_loads _ rs _ R).
Qed.

(** The fallback for three resumes, serialized with the default
    [ensure_ascii=True], comes back as itself. *)
Lemma fallback_idempotent_witness :
  exists v,
    result (normalizer Json.loads "I could not rank these resumes."
              [resume_A; resume_B; resume_C]) = Return v
    /\ normalizer Json.loads (Json.dumps true v) [resume_A; resume_B; resume_C]
       = ([], Return v).
Proof.
  apply (fallback_idempotent Json.loads (Json.dumps true) "I could not rank these resumes."
           [resume_A; resume_B; resume_C]).
  - vm_compute; reflexivity.
  - vm_compute; reflexivity.
Defined.

(** *** Reading the uploaded files *)

Section Pipeline.

Variable json_loads : string -> outcome value.
Variable fitz_page_texts : string -> outcome (list string).
Variable generate_content : list string -> outcome (option string).

Lemma extract_text_result file :
  result (extract_text_from_pdf fitz_page_texts file)
  = Return (extracted fitz_page_texts file).
Proof.
  unfold extract_text_from_pdf, extracted.
  destruct (fitz_page_texts (file_bytes file)); reflexivity.
Qed.

Lemma read_resumes_result files acc :
  result (read_resumes fitz_page_texts files acc)
  = Return (acc ++ map (resume_of fitz_page_texts) files)%list.
Proof.
  revert acc; induction files as [|file files IH]; intros acc; simpl.
  - now rewrite app_nil_r.
  - rewrite result_bind.
    pose proof (extract_text_result file) as H.
    destruct (extract_text_from_pdf fitz_page_texts file) as [log [c|e]];
      simpl in H; [|discriminate].
    injection H as ->. simpl. rewrite IH. now rewrite <- app_assoc.
Qed.

Lemma get_gemini_response_returns input_text pdf_content prompt :
  exists text,
    get_gemini_response generate_content input_text pdf_content prompt = ([], Return text).
Proof.
  unfold get_gemini_response.
  destruct (generate_content _) as [[text|]|e]; simpl; eexists; reflexivity.
Qed.

(** Once the files are read and the model has answered, the rest of
    [process_bulk_resumes] is the normalizer. *)
Lemma process_bulk_resumes_result job_description uploaded_files :
  result (process_bulk_resumes json_loads fitz_page_texts generate_content
            job_description uploaded_files)
  = match map (resume_of fitz_page_texts) uploaded_files with
    | [] => Return None
    | rs =>
        match result (get_gemini_response generate_content
                        (combined_prompt job_description rs) EmptyString prompts_rank) with
        | Return response =>
            match result (normalizer json_loads response rs) with
            | Return v => Return (Some v)
            | Raise e => Raise e
            end
        | Raise e => Raise e
        end
    end.
Proof.
  unfold process_bulk_resumes. rewrite result_bind, read_resumes_result. simpl.
  destruct (map (resume_of fitz_page_texts) uploaded_files) as [|r rs]; [reflexivity|].
  destruct (get_gemini_response_returns (combined_prompt job_description (r :: rs))
              EmptyString prompts_rank) as [text E].
  rewrite E. rewrite result_bind. simpl.
  unfold normalizer.
  destruct (parse_and_validate json_loads text (r :: rs)) as [log [v|e]]; simpl.
  - reflexivity.
  - unfold analysis_failed. reflexivity.
Qed.

End Pipeline.

(** C9, evaluated on the code: of three uploaded files the second cannot
    be opened.  It is not skipped: [all_resumes] holds three records, the
    second with empty content, the prompt names it, and three entries are
    ranked.  With that file alone the result is not [None] either. *)
Lemma failed_extraction_is_kept :
  read_resumes demo_fitz [file_A; file_B; file_C] []
  = ([st_error "❌ Error reading PDF: Failed to open stream"],
     Return [ {| name := "A.pdf"; content := "Alice" |};
              {| name := "B.pdf"; content := EmptyString |};
              {| name := "C.pdf"; content := "Carol" |} ])
  /\ combined_prompt "Engineer"
       [ {| name := "A.pdf"; content := "Alice" |};
         {| name := "B.pdf"; content := EmptyString |};
         {| name := "C.pdf"; content := "Carol" |} ]
     = "Job Description:" ++ nl ++ "Engineer" ++ nl ++ nl ++ "Resumes to analyze:" ++ nl
       ++ nl ++ "Resume: A.pdf" ++ nl ++ "Alice" ++ nl ++ "---" ++ nl
       ++ nl ++ "Resume: B.pdf" ++ nl ++ EmptyString ++ nl ++ "---" ++ nl
       ++ nl ++ "Resume: C.pdf" ++ nl ++ "Carol" ++ nl ++ "---" ++ nl
  /\ result (process_bulk_resumes Json.loads demo_fitz demo_generate "Engineer"
               [file_A; file_B; file_C])
     = Return (Some (VDict [("rankings",
                 VList [unanalyzed 0 "A.pdf"; unanalyzed 1 "B.pdf"; unanalyzed 2 "C.pdf"])]))
  /\ result (process_bulk_resumes Json.loads demo_fitz demo_generate "Engineer" [file_B])
     = Return (Some (VDict [("rankings", VList [unanalyzed 0 "B.pdf"])])).
Proof. repeat split; vm_compute; reflexivity. Qed.

(** C10: [extract_text_from_pdf] never raises, and returns the empty
    string when the extraction failed; so [all_resumes] gets exactly one
    record per uploaded file, in order and under the file's name, and
    [process_bulk_resumes], which never raises either, returns [None]
    exactly when no file was uploaded. *)
Theorem every_file_contributes
    (json_loads : string -> outcome value)
    (fitz_page_texts : string -> outcome (list string))
    (generate_content : list string -> outcome (option string))
    (job_description : string) (uploaded_files : list uploaded_file) :
  (forall file,
      result (extract_text_from_pdf fitz_page_texts file)
      = Return (match fitz_page_texts (file_bytes file) with
                | Return pages => strip (join nl pages)
                | Raise _ => EmptyString
                end))
  /\ (exists all_resumes,
        result (read_resumes fitz_page_texts uploaded_files []) = Return all_resumes
        /\ List.length all_resumes = List.length uploaded_files
        /\ map name all_resumes = map file_name uploaded_files)
  /\ (exists r,
        result (process_bulk_resumes json_loads fitz_page_texts generate_content
                  job_description uploaded_files) = Return r
        /\ (r = None <-> uploaded_files = [])).
Proof.
  split; [|split].
  - intros file. apply extract_text_result.
  - exists (map (resume_of fitz_page_texts) uploaded_files).
    split; [apply (read_resumes_result fitz_page_texts uploaded_files [])|].
    split; [apply length_map|].
    rewrite map_map. reflexivity.
  - rewrite process_bulk_resumes_result.
    destruct uploaded_files as [|file files]; simpl.
    + exists None. repeat split.
    + destruct (get_gemini_response_returns generate_content
                  (combined_prompt job_description
                     (resume_of fitz_page_texts file
                        :: map (resume_of fitz_page_texts) files))
                  EmptyString prompts_rank) as [text E].
      rewrite E. simpl.
      destruct (normalizer_returns json_loads text
                  (resume_of fitz_page_texts file
                     :: map (resume_of fitz_page_texts) files)) as [log [v N]].
      rewrite N. simpl. exists (Some v). split; [reflexivity|].
      split; discriminate.
Qed.

(** ** Further properties of the page *)

(** *** Shared lemmas *)

Lemma notices_bind {A B} (m : M A) (k : A -> M B) :
  notices (bind m k)
  = (notices m ++ match result m with
                  | Return a => notices (k a)
                  | Raise _ => []
                  end)%list.
Proof.
  destruct m as [log [a|e]]; simpl.
  - now destruct (k a).
  - now rewrite app_nil_r.
Qed.

Lemma bind_return {A B} log (a : A) (k : A -> M B) :
  bind (log, Return a) k = ((log ++ notices (k a))%list, result (k a)).
Proof. simpl. now destruct (k a). Qed.

Lemma bind_nil {A B} (a : A) (k : A -> M B) : bind ([], Return a) k = k a.
Proof. simpl. now destruct (k a). Qed.

Lemma get_gemini_response_text generate_content input_text pdf_content prompt :
  get_gemini_response generate_content input_text pdf_content prompt
  = ([], Return (gemini_text generate_content input_text pdf_content prompt)).
Proof.
  unfold get_gemini_response, gemini_text.
  destruct (generate_content _) as [[text|]|e]; reflexivity.
Qed.

Lemma extract_text_steps fitz_page_texts file :
  extract_text_from_pdf fitz_page_texts file
  = (reading_notices fitz_page_texts [file], Return (extracted fitz_page_texts file)).
Proof.
  unfold extract_text_from_pdf, reading_notices, extracted. simpl.
  destruct (fitz_page_texts (file_bytes file)); reflexivity.
Qed.

Lemma reading_notices_cons fitz_page_texts file files :
  reading_notices fitz_page_texts (file :: files)
  = (reading_notices fitz_page_texts [file] ++ reading_notices fitz_page_texts files)%list.
Proof. unfold reading_notices. cbn [flat_map]. now rewrite app_nil_r. Qed.

Lemma read_resumes_steps fitz_page_texts uploaded_files : forall all_resumes,
  read_resumes fitz_page_texts uploaded_files all_resumes
  = (reading_notices fitz_page_texts uploaded_files,
     Return (all_resumes ++ map (resume_of fitz_page_texts) uploaded_files)%list).
Proof.
  induction uploaded_files as [|file files IH]; intros acc.
  - simpl. now rewrite app_nil_r.
  - rewrite reading_notices_cons.
    change (read_resumes fitz_page_texts (file :: files) acc)
      with (bind
              (try_except
                 (bind (extract_text_from_pdf fitz_page_texts file)
                    (fun content =>
                       ret (acc ++ [ {| name := file_name file; content := content |} ])%list))
                 is_Exception
                 (fun e =>
                    bind (emit (st_error ("Error processing " ++ file_name file ++ ": "
                                            ++ str_exn e)))
                      (fun _ => ret acc)))
              (fun all_resumes' => read_resumes fitz_page_texts files all_resumes')).
    rewrite extract_text_steps.
    unfold bind at 2. unfold ret, try_except. rewrite app_nil_r.
    unfold bind. rewrite IH. f_equal. f_equal.
    rewrite <- app_assoc. reflexivity.
Qed.

Lemma extract_json_steps json_loads response rs :
  extract_json json_loads response rs
  = if has_braces response then
      match json_loads (json_str response) with
      | Return v => ([], Return v)
      | Raise e =>
          ([st_warning ("Could not parse JSON response: " ++ str_exn e)],
           Return (fallback_rankings rs))
      end
    else ([], Return (fallback_rankings rs)).
Proof.
  unfold extract_json, has_braces, json_str.
  destruct (negb (find response "{" =? -1)%Z && negb (rfind response "}" + 1 =? 0)%Z).
  - destruct (json_loads _) as [v|e]; reflexivity.
  - reflexivity.
Qed.

(** The normalizer case by case, notices included. *)
Lemma normalizer_steps json_loads raw rs :
  normalizer json_loads raw rs
  = match json_loads raw with
    | Return v => ([], Return (if fails_validation v then fallback_rankings rs else v))
    | Raise (JSONDecodeError _ _ _) =>
        if has_braces raw then
          match json_loads (json_str raw) with
          | Return v =>
              ([], Return (if fails_validation v then fallback_rankings rs else v))
          | Raise e =>
              ([st_warning ("Could not parse JSON response: " ++ str_exn e)],
               Return (fallback_rankings rs))
          end
        else ([], Return (fallback_rankings rs))
    | Raise (Exception msg) =>
        ([st_error ("Error analyzing resumes: " ++ msg)], Return (fallback_rankings rs))
    end.
Proof.
  unfold normalizer, parse_and_validate.
  destruct (json_loads raw) as [v|[msg doc pos|msg]] eqn:E; try reflexivity.
  simpl try_except at 2. cbv beta iota. rewrite extract_json_steps.
  destruct (has_braces raw); [|reflexivity].
  destruct (json_loads (json_str raw)); reflexivity.
Qed.

Lemma normalizer_output_valid json_loads raw rs v :
  result (normalizer json_loads raw rs) = Return v -> fails_validation v = false.
Proof.
  rewrite normalizer_result. intros [= <-].
  destruct (recovered json_loads raw) as [w|]; [|reflexivity].
  destruct (fails_validation w) eqn:F; [reflexivity | exact F].
Qed.

(** The bulk path on a non-empty upload, step by step. *)
Lemma bulk_steps json_loads fitz_page_texts generate_content job_description
    uploaded_files :
  uploaded_files <> [] ->
  process_bulk_resumes json_loads fitz_page_texts generate_content
    job_description uploaded_files
  = let all_resumes := map (resume_of fitz_page_texts) uploaded_files in
    let response :=
      gemini_text generate_content (combined_prompt job_description all_resumes)
        EmptyString prompts_rank in
    ((reading_notices fitz_page_texts uploaded_files
        ++ notices (normalizer json_loads response all_resumes))%list,
     match result (normalizer json_loads response all_resumes) with
     | Return v => Return (Some v)
     | Raise e => Raise e
     end).
Proof.
  intros NE. cbv zeta.
  set (rs := map (resume_of fitz_page_texts) uploaded_files).
  set (response := gemini_text generate_content (combined_prompt job_description rs)
                     EmptyString prompts_rank).
  destruct (normalizer_returns json_loads response rs) as [log [v N]].
  rewrite N. simpl notices. simpl result.
  unfold process_bulk_resumes. rewrite read_resumes_steps, bind_return. simpl app.
  fold rs. subst response. destruct rs as [|r rs'] eqn:Ers.
  - destruct uploaded_files; [congruence | discriminate].
  - rewrite get_gemini_response_text, bind_nil.
    change (try_except (parse_and_validate json_loads ?t (r :: rs')) is_Exception
              (analysis_failed (r :: rs')))
      with (normalizer json_loads t (r :: rs')).
    rewrite N, bind_return. simpl. now rewrite app_nil_r.
Qed.

(** *** The service and the files *)

(** X1: [get_gemini_response] never raises and shows no notice: it returns
    the text of the answer as it is, and turns a response without text and
    an exception of the service into the two error texts. *)
Theorem get_gemini_response_total
    (generate_content : list string -> outcome (option string))
    (input_text pdf_content prompt : string) :
  exists text,
    get_gemini_response generate_content input_text pdf_content prompt
    = ([], Return text)
    /\ match generate_content [input_text; pdf_content; prompt] with
       | Return (Some answer) => text = answer
       | Return None => text = "❌ Error: Unexpected response format from Gemini API."
       | Raise e => text = "❌ API Error: " ++ str_exn e
       end.
Proof.
  exists (gemini_text generate_content input_text pdf_content prompt).
  split; [apply get_gemini_response_text|].
  unfold gemini_text. destruct (generate_content _) as [[answer|]|e]; reflexivity.
Qed.

(** X2: the loop over the uploaded files shows exactly one "Error reading
    PDF" notice for each file that cannot be read, in upload order, and no
    other notice: the "Error processing" notice of the loop's own handler
    is never shown. *)
Theorem reading_shows_one_notice_per_failure
    (fitz_page_texts : string -> outcome (list string))
    (uploaded_files : list uploaded_file) (all_resumes : list resume) :
  notices (read_resumes fitz_page_texts uploaded_files all_resumes)
  = flat_map
      (fun file =>
         match fitz_page_texts (file_bytes file) with
         | Return _ => []
         | Raise e => [st_error ("❌ Error reading PDF: " ++ str_exn e)]
         end)
      uploaded_files
  /\ forall file e,
       ~ In (st_error ("Error processing " ++ file_name file ++ ": " ++ str_exn e))
            (notices (read_resumes fitz_page_texts uploaded_files all_resumes)).
Proof.
  rewrite read_resumes_steps. simpl notices. split; [reflexivity|].
  intros file e H. unfold reading_notices in H. apply in_flat_map in H.
  destruct H as [f [_ H]].
  destruct (fitz_page_texts (file_bytes f)) as [pages|e']; [destruct H|].
  destruct H as [H|[]]. discriminate H.
Qed.

(** *** The prompt *)

Lemma fold_blocks rs : forall init,
  fold_left (fun prompt r => prompt ++ prompt_block r) rs init
  = init ++ join EmptyString (map prompt_block rs).
Proof.
  induction rs as [|r rs IH]; intros init.
  - simpl. now rewrite append_nil_r.
  - simpl fold_left. rewrite IH.
    destruct rs as [|r' rs].
    + simpl. now rewrite append_nil_r.
    + change (join EmptyString (map prompt_block (r :: r' :: rs)))
        with (prompt_block r ++ EmptyString ++ join EmptyString (map prompt_block (r' :: rs))).
      now rewrite append_assoc.
Qed.

(** X3: the combined prompt is the header followed by one block per
    resume, in input order; each block names the resume, gives its content
    (which may be empty) and ends with the delimiter line.  Adding a resume
    at the end adds its block at the end. *)
Theorem combined_prompt_blocks (job_description : string) (all_resumes : list resume) :
  combined_prompt job_description all_resumes
  = prompt_header job_description ++ join EmptyString (map prompt_block all_resumes)
  /\ forall r,
       combined_prompt job_description (all_resumes ++ [r])
       = combined_prompt job_description all_resumes ++ prompt_block r.
Proof.
  split.
  - unfold combined_prompt. apply (fold_blocks all_resumes).
  - intros r. unfold combined_prompt. now rewrite fold_left_app.
Qed.

(** *** The normalizer *)

(** X4: the normalizer shows a warning exactly when the text between the
    braces was handed to the parser and rejected, and an error exactly when
    the direct parse raised something other than a decode error.  Every
    other fallback is silent: a response without braces and a parsed value
    that fails the validation check give the fallback without any notice. *)
Theorem normalizer_notices
    (json_loads : string -> outcome value) (raw : string) (rs : list resume) :
  notices (normalizer json_loads raw rs)
  = match json_loads raw with
    | Return _ => []
    | Raise (JSONDecodeError _ _ _) =>
        if has_braces raw then
          match json_loads (json_str raw) with
          | Return _ => []
          | Raise e => [st_warning ("Could not parse JSON response: " ++ str_exn e)]
          end
        else []
    | Raise (Exception msg) => [st_error ("Error analyzing resumes: " ++ msg)]
    end.
Proof.
  rewrite normalizer_steps.
  destruct (json_loads raw) as [v|[msg doc pos|msg]]; try reflexivity.
  destruct (has_braces raw); [|reflexivity].
  destruct (json_loads (json_str raw)); reflexivity.
Qed.

(** X5: a recovered structure is returned without a look at the resumes:
    when no fallback is triggered the normalizer gives the same result and
    the same notices for any two resume lists, so the names in the response
    are never compared with the names of the uploaded files. *)
Theorem recovered_result_ignores_resumes
    (json_loads : string -> outcome value) (raw : string) (rs rs' : list resume) :
  fallback_triggered json_loads raw = false ->
  normalizer json_loads raw rs = normalizer json_loads raw rs'.
Proof.
  unfold fallback_triggered, recovered. rewrite !normalizer_steps.
  destruct (json_loads raw) as [v|[msg doc pos|msg]]; try discriminate.
  - intros ->. reflexivity.
  - destruct (has_braces raw); [|discriminate].
    destruct (json_loads (json_str raw)) as [v|e]; [|discriminate].
    intros ->. reflexivity.
Qed.

(** A response naming files that were never uploaded is returned for any
    upload. *)
Lemma recovered_result_ignores_resumes_witness :
  fallback_triggered Json.loads prose_response = false
  /\ normalizer Json.loads prose_response [resume_B]
     = normalizer Json.loads prose_response [resume_C; resume_A].
Proof.
  split; [vm_compute; reflexivity|].
  apply (recovered_result_ignores_resumes Json.loads prose_response
           [resume_B] [resume_C; resume_A]).
  vm_compute; reflexivity.
Defined.

(** X6: every result of the normalizer is a fixed point of it: serialized
    and handed back, with any resume list, it is returned unchanged and
    without a notice, provided parsing undoes the serialization. *)
Theorem normalizer_output_is_fixed_point
    (json_loads : string -> outcome value) (json_dumps : value -> string)
    (raw : string) (rs rs' : list resume) (v : value) :
  result (normalizer json_loads raw rs) = Return v ->
  json_loads (json_dumps v) = Return v ->
  normalizer json_loads (json_dumps v) rs' = ([], Return v).
Proof.
  intros N R. apply normalizer_output_valid in N.
  rewrite (normalizer_parsed json_loads _ rs' v R). now rewrite N.
Qed.

Lemma normalizer_output_is_fixed_point_witness :
  result (normalizer Json.loads prose_response [resume_A]) = Return embedded_rankings
  /\ Json.loads (Json.dumps true embedded_rankings) = Return embedded_rankings
  /\ normalizer Json.loads (Json.dumps true embedded_rankings) [resume_B; resume_C]
     = ([], Return embedded_rankings).
Proof.
  split; [vm_compute; reflexivity|]. split; [vm_compute; reflexivity|].
  apply (normalizer_output_is_fixed_point Json.loads (Json.dumps true) prose_response
           [resume_A] [resume_B; resume_C] embedded_rankings).
  - vm_compute; reflexivity.
  - vm_compute; reflexivity.
Defined.

(** *** Text that is not JSON *)

Lemma find_absent_anywhere c s :
  find s c = (-1)%Z -> forall j, find_from c s j = (-1)%Z.
Proof.
  intros H j. unfold find in H.
  pose proof (find_from_absent c s 0 (Z.le_refl 0) H EmptyString j) as A.
  rewrite append_nil_r in A. exact A.
Qed.

(** A text that starts with a character no JSON document starts with is
    rejected by the decoder with a decode error at its first character. *)
Lemma loads_not_json a s :
  document_head a = false ->
  Json.loads (String a s)
  = Raise (JSONDecodeError "Expecting value" (String a s) 0).
Proof.
  intros H.
  destruct a as [[] [] [] [] [] [] [] []]; try discriminate H;
    unfold Json.loads; cbn -[Nat.sub cp_length];
    unfold Json.decode_error, Json.pos_of; now rewrite Nat.sub_diag.
Qed.

(** X7: when the request to the model raises, the error text takes the
    place of the answer; with the decoder above and an error message that
    holds no opening brace, the ranking is the fallback for every uploaded
    file and nothing tells the user that the service failed: the only
    notices are those of the reading. *)
Theorem service_failure_gives_silent_fallback
    (fitz_page_texts : string -> outcome (list string))
    (generate_content : list string -> outcome (option string))
    (job_description : string) (uploaded_files : list uploaded_file) (e : exn) :
  uploaded_files <> [] ->
  generate_content
    [combined_prompt job_description (map (resume_of fitz_page_texts) uploaded_files);
     EmptyString; prompts_rank] = Raise e ->
  find (str_exn e) "{" = (-1)%Z ->
  process_bulk_resumes Json.loads fitz_page_texts generate_content
    job_description uploaded_files
  = (reading_notices fitz_page_texts uploaded_files,
     Return (Some (fallback_rankings (map (resume_of fitz_page_texts) uploaded_files)))).
Proof.
  intros NE G F. rewrite (bulk_steps _ _ _ _ _ NE). cbv zeta.
  unfold gemini_text. rewrite G.
  set (rs := map (resume_of fitz_page_texts) uploaded_files).
  assert (N : normalizer Json.loads ("❌ API Error: " ++ str_exn e) rs
              = ([], Return (fallback_rankings rs))).
  { rewrite normalizer_steps.
    assert (B : has_braces ("❌ API Error: " ++ str_exn e) = false).
    { unfold has_braces, find.
      rewrite (find_from_absent "{" "❌ API Error: " 0 (Z.le_refl 0) eq_refl).
      now rewrite (find_absent_anywhere "{" _ F). }
    rewrite B.
    change ("❌ API Error: " ++ str_exn e)
      with (String (byte 226) ((String (byte 157) (String (byte 140) " API Error: "))
                                 ++ str_exn e)).
    now rewrite loads_not_json. }
  rewrite N. simpl. now rewrite app_nil_r.
Qed.

Lemma service_failure_gives_silent_fallback_witness :
  process_bulk_resumes Json.loads demo_fitz failing_generate "Engineer" [file_A; file_B]
  = ([st_error "❌ Error reading PDF: Failed to open stream"],
     Return (Some (VDict [("rankings",
                           VList [unanalyzed 0 "A.pdf"; unanalyzed 1 "B.pdf"])]))).
Proof.
  rewrite (service_failure_gives_silent_fallback demo_fitz failing_generate "Engineer"
             [file_A; file_B] (Exception "429 quota exceeded")).
  - vm_compute; reflexivity.
  - discriminate.
  - reflexivity.
  - vm_compute; reflexivity.
Defined.

(** X8: an answer in a Markdown code fence is recovered: when the parser
    rejects the fenced text with a decode error (a JSON document cannot
    start with a backtick) and the object between the fence lines parses to
    a value that passes the validation check, that value is returned,
    without a notice, whatever braces the object holds inside. *)
Theorem fenced_answer_is_recovered
    (json_loads : string -> outcome value) (inner : string) (rs : list resume)
    (v : value) (msg doc : string) (pos : nat) :
  json_loads (fenced (String "{" (inner ++ "}"))) = Raise (JSONDecodeError msg doc pos) ->
  json_loads (String "{" (inner ++ "}")) = Return v ->
  fails_validation v = false ->
  normalizer json_loads (fenced (String "{" (inner ++ "}"))) rs = ([], Return v).
Proof.
  intros E B V. rewrite normalizer_steps, E.
  assert (P : fenced (String "{" (inner ++ "}"))
              = ("```json" ++ nl) ++ String "{" (inner ++ "}") ++ (nl ++ "```")).
  { unfold fenced. now rewrite !append_assoc. }
  destruct (json_str_prose ("```json" ++ nl) inner (nl ++ "```") eq_refl eq_refl) as [H J].
  rewrite <- P in H, J. now rewrite H, J, B, V.
Qed.

(** A fenced ranking for one resume. *)
Lemma fenced_answer_is_recovered_witness :
  Json.loads
    (fenced (String "{" (dquoted "'rankings': [{'resume_name': 'A.pdf', 'rank': 1}]" ++ "}")))
  = Raise (JSONDecodeError "Expecting value"
             (fenced (String "{" (dquoted "'rankings': [{'resume_name': 'A.pdf', 'rank': 1}]"
                                    ++ "}"))) 0)
  /\ normalizer Json.loads
       (fenced (String "{" (dquoted "'rankings': [{'resume_name': 'A.pdf', 'rank': 1}]"
                              ++ "}")))
       [resume_A]
     = ([], Return (VDict [("rankings",
                            VList [VDict [("resume_name", VStr "A.pdf");
                                          ("rank", VInt 1)]])])).
Proof.
  split; [vm_compute; reflexivity|].
  apply (fenced_answer_is_recovered Json.loads
           (dquoted "'rankings': [{'resume_name': 'A.pdf', 'rank': 1}]") [resume_A] _
           "Expecting value"
           (fenced (String "{" (dquoted "'rankings': [{'resume_name': 'A.pdf', 'rank': 1}]"
                                  ++ "}"))) 0).
  - vm_compute; reflexivity.
  - vm_compute; reflexivity.
  - vm_compute; reflexivity.
Defined.

(** X9: when the last closing brace of an unparseable response comes
    before its first opening brace, the code still hands the (empty) text
    between them to the parser: the result is the fallback, with the
    warning the parser's rejection of the empty string gives rise to. *)
Theorem reversed_braces_warn
    (json_loads : string -> outcome value) (raw : string) (rs : list resume)
    (msg doc : string) (pos : nat) (e0 : exn) :
  json_loads raw = Raise (JSONDecodeError msg doc pos) ->
  json_loads EmptyString = Raise e0 ->
  rfind raw "}" <> (-1)%Z ->
  (rfind raw "}" < find raw "{")%Z ->
  normalizer json_loads raw rs
  = ([st_warning ("Could not parse JSON response: " ++ str_exn e0)],
     Return (fallback_rankings rs)).
Proof.
  intros E E0 L Lt. rewrite normalizer_steps, E.
  destruct (rfind_spec raw "}") as [R|[j [R _]]]; [congruence|].
  assert (B : has_braces raw = true).
  { unfold has_braces. apply andb_true_iff.
    split; apply negb_true_iff, Z.eqb_neq; lia. }
  rewrite B. unfold json_str. rewrite slice_empty by lia. now rewrite E0.
Qed.

Lemma reversed_braces_warn_witness :
  normalizer Json.loads "} then {" [resume_A]
  = ([st_warning "Could not parse JSON response: Expecting value: line 1 column 1 (char 0)"],
     Return (fallback_rankings [resume_A])).
Proof.
  apply (reversed_braces_warn Json.loads "} then {" [resume_A]
           "Expecting value" "} then {" 0 (JSONDecodeError "Expecting value" EmptyString 0)).
  - vm_compute; reflexivity.
  - vm_compute; reflexivity.
  - vm_compute; discriminate.
  - vm_compute; reflexivity.
Defined.

(** An object that holds braces inside, between prose that holds none. *)
Lemma prose_is_ignored_witness :
  result (normalizer Json.loads
            ("Sure! " ++ String "{" (dquoted "'rankings': [{'gaps': ['{x}']}]" ++ "}")
               ++ " Bye.")
            [resume_A])
  = Return (VDict [("rankings", VList [VDict [("gaps", VList [VStr "{x}"])]])]).
Proof.
  apply (prose_is_ignored Json.loads "Sure! " (dquoted "'rankings': [{'gaps': ['{x}']}]")
           " Bye." [resume_A] _ "Expecting value"
           ("Sure! " ++ String "{" (dquoted "'rankings': [{'gaps': ['{x}']}]" ++ "}")
              ++ " Bye.") 0).
  - reflexivity.
  - reflexivity.
  - vm_compute; reflexivity.
  - vm_compute; reflexivity.
  - vm_compute; reflexivity.
Defined.

(** *** The whole bulk path *)

(** X10: [process_bulk_resumes] on a non-empty upload is: read every file,
    build the one combined prompt, ask the model, and normalize the answer
    against all the resumes, unreadable ones included.  The notices are
    those of the reading followed by those of the normalizer; the result is
    neither [None] nor an exception. *)
Theorem process_bulk_resumes_full
    (json_loads : string -> outcome value)
    (fitz_page_texts : string -> outcome (list string))
    (generate_content : list string -> outcome (option string))
    (job_description : string) (uploaded_files : list uploaded_file) :
  uploaded_files <> [] ->
  let all_resumes := map (resume_of fitz_page_texts) uploaded_files in
  let response :=
    gemini_text generate_content (combined_prompt job_description all_resumes)
      EmptyString prompts_rank in
  exists log v,
    normalizer json_loads response all_resumes = (log, Return v)
    /\ process_bulk_resumes json_loads fitz_page_texts generate_content
         job_description uploaded_files
       = ((reading_notices fitz_page_texts uploaded_files ++ log)%list, Return (Some v)).
Proof.
  intros NE rs response.
  destruct (normalizer_returns json_loads response rs) as [log [v N]].
  exists log, v. split; [exact N|].
  rewrite (bulk_steps _ _ _ _ _ NE). cbv zeta. fold rs. fold response.
  now rewrite N.
Qed.

Lemma process_bulk_resumes_full_witness :
  exists log v,
    normalizer Json.loads "I could not rank these resumes."
      [ {| name := "A.pdf"; content := "Alice" |}; {| name := "B.pdf"; content := EmptyString |} ]
    = (log, Return v)
    /\ process_bulk_resumes Json.loads demo_fitz demo_generate "Engineer" [file_A; file_B]
       = (([st_error "❌ Error reading PDF: Failed to open stream"] ++ log)%list,
          Return (Some v)).
Proof.
  apply (process_bulk_resumes_full Json.loads demo_fitz demo_generate "Engineer"
           [file_A; file_B]).
  discriminate.
Defined.

(** X11: the bulk path consults the model once: two services that give the
    same answer to the one combined prompt give the same ranking and the
    same notices, whatever they answer to anything else. *)
Theorem bulk_depends_on_one_answer
    (json_loads : string -> outcome value)
    (fitz_page_texts : string -> outcome (list string))
    (generate_content generate_content' : list string -> outcome (option string))
    (job_description : string) (uploaded_files : list uploaded_file) :
  generate_content
    [combined_prompt job_description (map (resume_of fitz_page_texts) uploaded_files);
     EmptyString; prompts_rank]
  = generate_content'
      [combined_prompt job_description (map (resume_of fitz_page_texts) uploaded_files);
       EmptyString; prompts_rank] ->
  process_bulk_resumes json_loads fitz_page_texts generate_content
    job_description uploaded_files
  = process_bulk_resumes json_loads fitz_page_texts generate_content'
      job_description uploaded_files.
Proof.
  intros H. destruct uploaded_files as [|file files]; [reflexivity|].
  rewrite !bulk_steps by discriminate. cbv zeta. unfold gemini_text.
  now rewrite H.
Qed.

Lemma bulk_depends_on_one_answer_witness :
  process_bulk_resumes Json.loads demo_fitz demo_generate "Engineer" [file_A; file_C]
  = process_bulk_resumes Json.loads demo_fitz
      (fun parts =>
         match parts with
         | [_; EmptyString; _] => Return (Some "I could not rank these resumes.")
         | _ => Raise (Exception "not the ranking request")
         end)
      "Engineer" [file_A; file_C].
Proof.
  apply (bulk_depends_on_one_answer Json.loads demo_fitz demo_generate).
  reflexivity.
Defined.

(** X12: whatever was uploaded and whatever the model answered, the result
    for a non-empty upload is a non-empty dict that has the key
    [rankings]: the test [rankings and "rankings" in rankings] of line 368
    holds, so the notice of its [else] branch cannot be shown. *)
Theorem bulk_result_is_displayable
    (json_loads : string -> outcome value)
    (fitz_page_texts : string -> outcome (list string))
    (generate_content : list string -> outcome (option string))
    (job_description : string) (uploaded_files : list uploaded_file) :
  uploaded_files <> [] ->
  exists log d,
    process_bulk_resumes json_loads fitz_page_texts generate_content
      job_description uploaded_files = (log, Return (Some (VDict d)))
    /\ d <> []
    /\ dict_has "rankings" d = true.
Proof.
  intros NE. rewrite (bulk_steps _ _ _ _ _ NE). cbv zeta.
  set (rs := map (resume_of fitz_page_texts) uploaded_files).
  set (response := gemini_text generate_content (combined_prompt job_description rs)
                     EmptyString prompts_rank).
  destruct (normalizer_returns json_loads response rs) as [log [v N]].
  assert (V : fails_validation v = false).
  { apply (normalizer_output_valid json_loads response rs v). now rewrite N. }
  rewrite N. simpl notices. simpl result.
  apply passes_validation in V. destruct V as [d [-> Hd]].
  eexists _, d. split; [reflexivity|]. split; [|exact Hd].
  intros ->. discriminate Hd.
Qed.

Lemma bulk_result_is_displayable_witness :
  exists log d,
    process_bulk_resumes Json.loads demo_fitz failing_generate "Engineer" [file_B]
    = (log, Return (Some (VDict d)))
    /\ d <> []
    /\ dict_has "rankings" d = true.
Proof.
  apply (bulk_result_is_displayable Json.loads demo_fitz failing_generate "Engineer"
           [file_B]).
  discriminate.
Defined.

(** *** The fallback *)

Lemma enumerate_from_fst {A} (l : list A) i :
  map fst (enumerate_from i l) = seq i (List.length l).
Proof.
  revert i; induction l as [|x l IH]; intros i; simpl; [reflexivity|].
  now rewrite IH.
Qed.

Lemma enumerate_from_snd {A} (l : list A) i : map snd (enumerate_from i l) = l.
Proof.
  revert i; induction l as [|x l IH]; intros i; simpl; [reflexivity|].
  now rewrite IH.
Qed.

Lemma NoDup_map_injective {A B} (f : A -> B) l :
  (forall x y, f x = f y -> x = y) -> NoDup l -> NoDup (map f l).
Proof.
  intros I. induction 1 as [|x l N _ IH]; simpl; constructor; [|exact IH].
  intros H. apply in_map_iff in H. destruct H as [y [E Hy]].
  apply I in E. now subst y.
Qed.

(** X13: the ranks of the fallback are 1, 2, ..., N in input order, hence
    distinct, and its names are the names of the resumes in input order. *)
Theorem fallback_ranks (rs : list resume) :
  exists l,
    rankings_of (fallback_rankings rs) = Some l
    /\ map (entry_field "rank") l
       = map (fun k => Some (VInt (Z.of_nat k))) (seq 1 (List.length rs))
    /\ NoDup (map (entry_field "rank") l)
    /\ map (entry_field "resume_name") l = map (fun r => Some (VStr (name r))) rs.
Proof.
  eexists. split; [apply fallback_rankings_of|].
  assert (R : map (entry_field "rank")
                (map (fun ir => fallback_entry (fst ir) (snd ir)) (enumerate rs))
              = map (fun k => Some (VInt (Z.of_nat k))) (seq 1 (List.length rs))).
  { rewrite map_map. unfold enumerate.
    rewrite <- seq_shift, map_map, <- (enumerate_from_fst rs 0), map_map.
    apply map_ext. intros [i r]. simpl. f_equal. f_equal. lia. }
  split; [exact R|]. split.
  - rewrite R. apply NoDup_map_injective; [|apply seq_NoDup].
    intros x y [= H]. lia.
  - rewrite map_map. unfold enumerate.
    rewrite <- (enumerate_from_snd rs 0) at 2. rewrite map_map.
    apply map_ext. now intros [i r].
Qed.

(** *** The single-resume buttons *)

Lemma analysis_button_steps fitz_page_texts generate_content prompt input_text file :
  strip input_text <> EmptyString ->
  analysis_button fitz_page_texts generate_content prompt input_text (Some file)
  = (reading_notices fitz_page_texts [file],
     Return (Some (gemini_text generate_content input_text
                     (extracted fitz_page_texts file) prompt))).
Proof.
  intros NE. unfold analysis_button.
  destruct (String.eqb_spec (strip input_text) EmptyString) as [E|_]; [congruence|].
  simpl negb. cbv iota.
  rewrite extract_text_steps, bind_return, get_gemini_response_text, bind_nil.
  simpl. now rewrite app_nil_r.
Qed.

(** X14: a click on one of the four analysis buttons does nothing at all,
    neither an extraction nor a request nor a notice, when no file is
    uploaded or the job description is blank. *)
Theorem analysis_button_needs_both
    (fitz_page_texts : string -> outcome (list string))
    (generate_content : list string -> outcome (option string))
    (prompt input_text : string) (uploaded_file : option uploaded_file) :
  uploaded_file = None \/ strip input_text = EmptyString ->
  analysis_button fitz_page_texts generate_content prompt input_text uploaded_file
  = ([], Return None).
Proof.
  intros [->|E]; [reflexivity|].
  unfold analysis_button. destruct uploaded_file as [file|]; [|reflexivity].
  now rewrite E.
Qed.

Lemma analysis_button_needs_both_witness :
  strip ("  " ++ nl ++ " ") = EmptyString
  /\ analysis_button demo_fitz demo_generate prompts_keywords ("  " ++ nl ++ " ")
       (Some file_B)
     = ([], Return None).
Proof.
  split; [vm_compute; reflexivity|].
  apply (analysis_button_needs_both demo_fitz demo_generate prompts_keywords
           ("  " ++ nl ++ " ") (Some file_B)).
  right. vm_compute; reflexivity.
Defined.

(** X15: an unreadable PDF does not stop a single-resume analysis: the
    error notice is shown, and the model is still asked, with the job
    description and an empty resume text; its answer (or error text) is
    what the button displays.  The click never raises. *)
Theorem analysis_of_unreadable_pdf
    (fitz_page_texts : string -> outcome (list string))
    (generate_content : list string -> outcome (option string))
    (prompt input_text : string) (file : uploaded_file) (e : exn) :
  strip input_text <> EmptyString ->
  fitz_page_texts (file_bytes file) = Raise e ->
  analysis_button fitz_page_texts generate_content prompt input_text (Some file)
  = ([st_error ("❌ Error reading PDF: " ++ str_exn e)],
     Return (Some (gemini_text generate_content input_text EmptyString prompt))).
Proof.
  intros NE F. rewrite (analysis_button_steps _ _ _ _ _ NE).
  unfold reading_notices, extracted. simpl. now rewrite F.
Qed.

Lemma analysis_of_unreadable_pdf_witness :
  analysis_button demo_fitz demo_generate prompts_match "Data engineer" (Some file_B)
  = ([st_error "❌ Error reading PDF: Failed to open stream"],
     Return (Some "I could not rank these resumes.")).
Proof.
  apply (analysis_of_unreadable_pdf demo_fitz demo_generate prompts_match
           "Data engineer" file_B (Exception "Failed to open stream")).
  - vm_compute; discriminate.
  - reflexivity.
Defined.

(** *** Stripping *)

Lemma drop_space_shorter s s' :
  drop_space s = Some s' -> String.length s' < String.length s.
Proof.
  unfold drop_space. destruct s as [|a [|b [|c s3]]]; simpl;
    repeat match goal with
           | |- context [if ?b then _ else _] => destruct b
           end;
    intros [= <-]; simpl; lia.
Qed.

Lemma drop_space_rev_shorter s s' :
  drop_space_rev s = Some s' -> String.length s' < String.length s.
Proof.
  unfold drop_space_rev. destruct s as [|a [|b [|c s3]]]; simpl;
    repeat match goal with
           | |- context [if ?b then _ else _] => destruct b
           end;
    intros [= <-]; simpl; lia.
Qed.

Lemma drop_while_stops step :
  (forall s s', step s = Some s' -> String.length s' < String.length s) ->
  forall fuel s, String.length s <= fuel -> step (drop_while step fuel s) = None.
Proof.
  intros Sh. induction fuel as [|fuel IH]; intros s Hf; simpl.
  - destruct (step s) as [s'|] eqn:E; [|reflexivity].
    apply Sh in E. lia.
  - destruct (step s) as [s'|] eqn:E; [|exact E].
    apply IH. apply Sh in E. lia.
Qed.

Lemma drop_space_rev_suffix s s' :
  drop_space_rev s = Some s' -> exists x, s = x ++ s'.
Proof.
  unfold drop_space_rev. destruct s as [|a [|b [|c s3]]]; simpl;
    repeat match goal with
           | |- context [if ?b then _ else _] => destruct b
           end;
    intros [= <-];
    first [ now exists (String a EmptyString)
          | now exists (String a (String b EmptyString))
          | now exists (String a (String b (String c EmptyString))) ].
Qed.

Lemma drop_while_suffix step :
  (forall s s', step s = Some s' -> exists x, s = x ++ s') ->
  forall fuel s, exists x, s = x ++ drop_while step fuel s.
Proof.
  intros Su. induction fuel as [|fuel IH]; intros s; simpl.
  - now exists EmptyString.
  - destruct (step s) as [s'|] eqn:E; [|now exists EmptyString].
    apply Su in E. destruct E as [x ->]. destruct (IH s') as [y Hy].
    exists (x ++ y). rewrite append_assoc. now rewrite <- Hy.
Qed.

Lemma rev_string_acc s : forall acc,
  rev_string s acc = rev_string s EmptyString ++ acc.
Proof.
  induction s as [|a s IH]; intros acc; simpl; [reflexivity|].
  rewrite IH, (IH (String a EmptyString)), append_assoc. reflexivity.
Qed.

Lemma rev_string_length s : String.length (rev_string s EmptyString) = String.length s.
Proof.
  induction s as [|a s IH]; simpl; [reflexivity|].
  rewrite rev_string_acc, length_append, IH. simpl. lia.
Qed.

Lemma rev_string_append a b :
  rev_string (a ++ b) EmptyString = rev_string b EmptyString ++ rev_string a EmptyString.
Proof.
  induction a as [|x a IH]; simpl.
  - now rewrite append_nil_r.
  - rewrite rev_string_acc, IH, (rev_string_acc a (String x EmptyString)).
    now rewrite append_assoc.
Qed.

Lemma rev_string_involutive s : rev_string (rev_string s EmptyString) EmptyString = s.
Proof.
  induction s as [|a s IH]; simpl; [reflexivity|].
  rewrite (rev_string_acc s (String a EmptyString)), rev_string_append, IH.
  reflexivity.
Qed.

Lemma rstrip_prefix t : exists u, t = rstrip t ++ u.
Proof.
  unfold rstrip.
  destruct (drop_while_suffix drop_space_rev drop_space_rev_suffix
              (String.length t) (rev_string t EmptyString)) as [x H].
  exists (rev_string x EmptyString).
  rewrite <- (rev_string_involutive t) at 1. rewrite H at 1.
  apply rev_string_append.
Qed.

Lemma drop_space_prefix p u : drop_space (p ++ u) = None -> drop_space p = None.
Proof.
  unfold drop_space.
  destruct p as [|a [|b [|c p]]]; simpl; intros H.
  - reflexivity.
  - destruct (ascii_space a); [discriminate H | reflexivity].
  - destruct (ascii_space a); [discriminate H|].
    destruct (space2 (nat_of_ascii a) (nat_of_ascii b)); [discriminate H | reflexivity].
  - destruct (ascii_space a); [discriminate H|].
    destruct (space2 (nat_of_ascii a) (nat_of_ascii b)); [discriminate H|].
    destruct (space3 (nat_of_ascii a) (nat_of_ascii b) (nat_of_ascii c));
      [discriminate H | reflexivity].
Qed.

Lemma strip_is_stripped s :
  drop_space (strip s) = None
  /\ drop_space_rev (rev_string (strip s) EmptyString) = None.
Proof.
  unfold strip. split.
  - destruct (rstrip_prefix (lstrip s)) as [u H].
    apply (drop_space_prefix _ u). rewrite <- H.
    unfold lstrip. apply (drop_while_stops drop_space drop_space_shorter). lia.
  - unfold rstrip at 1. rewrite rev_string_involutive.
    apply (drop_while_stops drop_space_rev drop_space_rev_shorter).
    now rewrite rev_string_length.
Qed.

(** X16: the text [extract_text_from_pdf] returns neither starts nor ends
    with a whitespace character (of those [str.strip] removes), whatever
    the pages hold and whether or not the document could be read. *)
Theorem extracted_text_is_stripped
    (fitz_page_texts : string -> outcome (list string)) (file : uploaded_file) :
  exists log text,
    extract_text_from_pdf fitz_page_texts file = (log, Return text)
    /\ drop_space text = None
    /\ drop_space_rev (rev_string text EmptyString) = None.
Proof.
  rewrite extract_text_steps. eexists _, _. split; [reflexivity|].
  unfold extracted. destruct (fitz_page_texts (file_bytes file)) as [pages|e].
  - apply strip_is_stripped.
  - split; reflexivity.
Qed.

(** *** The report *)

Lemma append_cancel_head (s a b : string) : s ++ a = s ++ b -> a = b.
Proof.
  induction s as [|x s IH]; simpl; [trivial|].
  intros [= H]. now apply IH.
Qed.

Lemma append_cancel_tail (t : string) : forall a b, a ++ t = b ++ t -> a = b.
Proof.
  induction a as [|x a IH]; intros [|y b] H; simpl in H.
  - reflexivity.
  - exfalso. apply (f_equal String.length) in H. simpl in H.
    rewrite length_append in H. lia.
  - exfalso. apply (f_equal String.length) in H. simpl in H.
    rewrite length_append in H. lia.
  - injection H as -> H. f_equal. now apply IH.
Qed.

(** X18: the report keeps the analysis apart: for the same time, job
    description and resume text, two reports are equal exactly when the
    responses they were written from are equal, character by character. *)
Theorem report_determines_response
    (now job_description resume_content response response' : string) :
  generate_analysis_report now response job_description resume_content
  = generate_analysis_report now response' job_description resume_content
  <-> response = response'.
Proof.
  split; [|now intros ->].
  unfold generate_analysis_report. intros H.
  repeat (apply append_cancel_head in H).
  now apply (append_cancel_tail (nl ++ "    ")).
Qed.
